(** * Grid search over gradient descent: a shallow embedding of [calibrate.go]
      and of the [regression] package, with the properties of its
      specification.

    Go's [float64] is IEEE 754 binary64 with round-to-nearest-even, which is
    exactly Rocq's primitive [float]; every operation is rounded on its own,
    as the Go compiler does on amd64 (it may fuse [x*y + z] elsewhere), and
    a division by zero gives an infinity or NaN, not a panic.
    Slices are lists, a runtime panic is the [Panic] outcome of the [result]
    monad, and the goroutines that update the shared optimum take their
    steps one at a time, in the order a schedule gives. The functions that
    read the input and write the files are followed as a process, in the
    module [main]: with the input as the decoder returns it, the files as
    the operating system grants them, and an ending that tells a return
    from a panic and from the end of the process in [log.Fatal]. *)

From Stdlib Require Import Floats ZArith String List Bool Lia PeanoNat.
Import ListNotations.

Set Implicit Arguments.

(** ** Outcomes of Go code that may panic *)

Inductive result (A : Type) : Type :=
| Ok (a : A)
| Panic.

Arguments Ok {A} a.
Arguments Panic {A}.

Definition bind {A B : Type} (c : result A) (k : A -> result B) : result B :=
  match c with
  | Ok a => k a
  | Panic => Panic
  end.

Declare Scope go_scope.
Delimit Scope go_scope with go.
Notation "x <- c ;; k" := (bind c (fun x => k))
  (at level 61, c at next level, right associativity) : go_scope.
Notation "' pat <- c ;; k" := (bind c (fun x => match x with pat => k end))
  (at level 61, pat pattern, c at next level, right associativity) : go_scope.

Open Scope go_scope.
Open Scope float_scope.

(** [s[i]]: an index outside the slice is a runtime panic. *)
Definition index {A : Type} (s : list A) (i : nat) : result A :=
  match nth_error s i with
  | Some a => Ok a
  | None => Panic
  end.

(** [for i := first; i < first + n; i++ { acc = body(i, acc) }]. *)
Fixpoint forLoop {A : Type} (n first : nat) (body : nat -> A -> result A)
    (acc : A) : result A :=
  match n with
  | O => Ok acc
  | S n' => acc' <- body first acc ;; forLoop n' (S first) body acc'
  end.

(** [for _, v := range s { acc = body(v, acc) }]. *)
Fixpoint forRange {A B : Type} (s : list A) (body : A -> B -> result B)
    (acc : B) : result B :=
  match s with
  | [] => Ok acc
  | v :: s' => acc' <- body v acc ;; forRange s' body acc'
  end.

(** [float64(n)] for a slice length [n]. *)
Definition float64_of_len (n : nat) : float :=
  of_uint63 (Uint63.of_Z (Z.of_nat n)).

(** [math.MaxFloat64], the largest finite [float64]. *)
Definition MaxFloat64 : float := 0x1.fffffffffffffp+1023.

(** The errors of [strconv.ParseFloat]. *)
Inductive NumError : Type := ErrSyntax | ErrRange.

(** What the program takes from Go's library and from the language
    implementation: [math.Pow], the conversion [int(f)] of a [float64] (whose
    result outside the range of [int] depends on the implementation), and
    [strconv.ParseFloat] with no more of its contract than that a string
    that is not a number comes back as 0 next to [ErrSyntax]. *)
Class GoLibrary : Type := {
  math_Pow : float -> float -> float;
  float64_to_int : float -> Z;
  strconv_ParseFloat : string -> float * option NumError;
  strconv_ParseFloat_syntax :
    forall s, snd (strconv_ParseFloat s) = Some ErrSyntax ->
              fst (strconv_ParseFloat s) = 0
}.

(** ** Package [data] *)

Record InputData : Type := { X : list float; Y : list float }.

(** ** Package [regression] *)

Module regression.

Record Parameters : Type := { Mu : float; Beta : float }.

Section Engine.
Context {lib : GoLibrary}.

Definition CalcMSE (predicted actual : list float) : result float :=
  mse <- forLoop (length predicted) 0
           (fun i mse =>
              p <- index predicted i ;;
              a <- index actual i ;;
              Ok (mse + math_Pow (p - a) 2))
           0 ;;
  Ok (mse / float64_of_len (length predicted)).

Definition Forecast (mu beta : float) (x : list float) : list float :=
  map (fun xi => beta * xi + mu) x.

Definition calcGradientBeta (predicted : list float) (data : InputData)
    : result float :=
  gradientBeta <- forLoop (length predicted) 0
           (fun i gradientBeta =>
              y <- index (Y data) i ;;
              p <- index predicted i ;;
              x <- index (X data) i ;;
              Ok (gradientBeta + ((y - p) * x)))
           0 ;;
  Ok (- (2 * gradientBeta / float64_of_len (length predicted))).

Definition calcGradientMu (predicted actual : list float) : result float :=
  gradientMu <- forLoop (length predicted) 0
           (fun i gradientMu =>
              a <- index actual i ;;
              p <- index predicted i ;;
              Ok (gradientMu + (a - p)))
           0 ;;
  Ok (- (2 * gradientMu / float64_of_len (length predicted))).

(** [parameters] is a copy of the caller's struct; its two fields are
    overwritten one after the other. *)
Definition UpdateParams (parameters : Parameters) (data : InputData)
    (alpha : float) : result Parameters :=
  let predicted := Forecast (Mu parameters) (Beta parameters) (X data) in
  gMu <- calcGradientMu predicted (Y data) ;;
  let parameters :=
    {| Mu := Mu parameters - alpha * gMu; Beta := Beta parameters |} in
  gBeta <- calcGradientBeta predicted data ;;
  let parameters :=
    {| Mu := Mu parameters; Beta := Beta parameters - alpha * gBeta |} in
  Ok parameters.

Definition Normalize (rawData : InputData) (minX maxX : float) : InputData :=
  {| X := map (fun x => (x - minX) / (maxX - minX)) (X rawData);
     Y := Y rawData |}.

Definition UnNormalize (parameters : Parameters) (data : InputData)
    (minX maxX : float) : Parameters :=
  {| Mu := Mu parameters;
     Beta := Beta parameters / (maxX - minX) - minX |}.

(** [arr[0]] panics on the empty slice; [min > value] is [value < min]. *)
Definition MinMax (arr : list float) : result (float * float) :=
  first <- index arr 0 ;;
  let '(max, min) :=
    fold_left
      (fun '(max, min) value =>
         let max := if max <? value then value else max in
         let min := if value <? min then value else min in
         (max, min))
      arr (first, first) in
  Ok (min, max).

End Engine.
End regression.

(** ** Package [main] ([calibrate.go]) *)

Import regression.

(** One record of the input stream, as [encoding/json] fills it. *)
Record jsonInput : Type := {
  jOutpath : string;
  jAlpha : list string;
  jNumEpochs : list string;
  jLambda : list string;
  jMiniBatchSize : list string
}.

(** A slice is its list of elements, [nil] being the empty list: the code
    below only takes [len] of these slices, ranges over them and reads
    element 0 of a slice it has just built. *)
Record Hyperparameters : Type := {
  Outpath : string;
  Alpha : list float;
  NumEpochs : list float;
  Lambda : list float;
  MiniBatchSize : list float
}.

(** The three variables that hold the optimum found so far: the locals
    [optimalHyperParams], [optimalMSE], [optimalModelParams] of the
    sequential search, their [local...] and [global...] namesakes of the
    parallel one. *)
Record BestResult : Type := {
  optimalHyperParams : Hyperparameters;
  optimalMSE : float;
  optimalModelParams : Parameters
}.

(** What one call of [dec.Decode(&j)] that does not return [io.EOF] leaves:
    [err == nil] with the record in [j], or an error with whatever [j] holds
    then. A decoder is the sequence of these outcomes, [io.EOF] from its end
    on; the inputs here are those on which decoding comes to [io.EOF]. An
    input on which it does not, because an error stays in the decoder, is a
    [Stdin] further down. *)
Inductive decoded : Type :=
| Decoded (j : jsonInput)
| DecodeError (j : jsonInput).

Definition Decoder : Type := list decoded.


Section Calibrate.
Context {lib : GoLibrary}.

Definition stringToFloat64 (input : list string) : list float :=
  map (fun s => fst (strconv_ParseFloat s)) input.

(** The five assignments that fill [h] from [j]. *)
Definition fillHyperparameters (j : jsonInput) : Hyperparameters :=
  {| Outpath := jOutpath j;
     Alpha := stringToFloat64 (jAlpha j);
     NumEpochs := stringToFloat64 (jNumEpochs j);
     Lambda := stringToFloat64 (jLambda j);
     MiniBatchSize := stringToFloat64 (jMiniBatchSize j) |}.

(** The loop ends at [io.EOF]; any other error is printed and the loop body
    goes on to its assignments and its [append]. *)
Fixpoint readJSONInputTasks (dec : Decoder) : list Hyperparameters :=
  match dec with
  | [] => []
  | Decoded j :: dec' => fillHyperparameters j :: readJSONInputTasks dec'
  | DecodeError j :: dec' => fillHyperparameters j :: readJSONInputTasks dec'
  end.

(** The tasks sent on the channel, in order, and the decoder as the call
    leaves it, for a block size that [make] accepts;
    [main.readJSONInputTasksParallel] further down is the call for any block
    size, on any input. *)
Fixpoint readJSONInputTasksParallel (blockSize : nat) (dec : Decoder)
    : list Hyperparameters * Decoder :=
  match blockSize with
  | O => ([], dec)
  | S blockSize' =>
      match dec with
      | [] => ([], dec)
      | Decoded j :: dec' =>
          let '(tasks, rest) := readJSONInputTasksParallel blockSize' dec' in
          (fillHyperparameters j :: tasks, rest)
      | DecodeError j :: dec' =>
          let '(tasks, rest) := readJSONInputTasksParallel blockSize' dec' in
          (fillHyperparameters j :: tasks, rest)
      end
  end.

Definition createArrayParamPermutations (hyperparameters : Hyperparameters)
    : list Hyperparameters :=
  flat_map
    (fun alpha =>
       map (fun numEpochs =>
              {| Outpath := Outpath hyperparameters;
                 Alpha := [alpha];
                 NumEpochs := [numEpochs];
                 Lambda := [];
                 MiniBatchSize := [] |})
           (NumEpochs hyperparameters))
    (Alpha hyperparameters).

Definition runGradientDescent (dataNormalized : InputData)
    (alpha numEpochs : float) : result Parameters :=
  forLoop (Z.to_nat (float64_to_int numEpochs)) 0
    (fun _ parameters => UpdateParams parameters dataNormalized alpha)
    {| Mu := 0; Beta := 0 |}.

(** The body of the loops over [hyperParams.Alpha] and
    [hyperParams.NumEpochs] for one Grid. *)
Definition searchSequential (data : InputData) (minX maxX : float)
    (dataNormalized : InputData) (hyperParams : Hyperparameters)
    : result BestResult :=
  forRange (Alpha hyperParams)
    (fun alpha best =>
       forRange (NumEpochs hyperParams)
         (fun numEpochs best =>
            parameters <- runGradientDescent dataNormalized alpha numEpochs ;;
            let parameters := UnNormalize parameters data minX maxX in
            let predicted :=
              Forecast (Mu parameters) (Beta parameters) (X data) in
            mse <- CalcMSE predicted (Y data) ;;
            Ok (if mse <? optimalMSE best
                then {| optimalHyperParams :=
                          {| Outpath := Outpath hyperParams;
                             Alpha := [alpha];
                             NumEpochs := [numEpochs];
                             Lambda := [];
                             MiniBatchSize := [] |};
                        optimalMSE := mse;
                        optimalModelParams :=
                          {| Mu := Mu parameters; Beta := Beta parameters |} |}
                else best))
         best)
    {| optimalHyperParams :=
         {| Outpath := Outpath hyperParams; Alpha := []; NumEpochs := [];
            Lambda := []; MiniBatchSize := [] |};
       optimalMSE := MaxFloat64;
       optimalModelParams := {| Mu := 0; Beta := 0 |} |}.

(** *** The parallel search *)

(** [workArray[a:b]], for [a <= b <= len(workArray)]. *)
Definition slice {A : Type} (s : list A) (a b : nat) : list A :=
  firstn (b - a) (skipn a s).

Definition len {A : Type} (s : list A) : Z := Z.of_nat (length s).

(** [worker] computes the next two numbers in [float64]; the lengths of
    slices are integers far below 2^53, on which [float64] products are exact
    and [math.Ceil] of the rounded quotient is the ceiling of the exact
    one, so they are integers here. The ceiling of the quotient is written
    for [numThreads >= 1], which is what [gridSearchParallel] starts a
    worker with. *)
Definition numTotalParamSets (hyperParams : Hyperparameters) : Z :=
  (Z.max 1 (len (Alpha hyperParams)) * Z.max 1 (len (NumEpochs hyperParams))
   * Z.max 1 (len (Lambda hyperParams))
   * Z.max 1 (len (MiniBatchSize hyperParams)))%Z.

Definition workSizePerThread (hyperParams : Hyperparameters)
    (numThreads : Z) : Z :=
  (- ((- numTotalParamSets hyperParams) / numThreads))%Z.

(** The loop [for i := 0; i < numThreads; i++] of [worker], from [i] on with
    [count] iterations left: the [subworkArray] of every sub-worker it
    launches, in order; it stops at the first [endIndex] beyond the work. *)
Fixpoint subworkArrays (workArray : list Hyperparameters) (workSize : Z)
    (count : nat) (i : Z) : list (list Hyperparameters) :=
  match count with
  | O => []
  | S count' =>
      let startIndex := (i * workSize)%Z in
      let endIndex := ((i + 1) * workSize)%Z in
      if (len workArray <? endIndex)%Z then []
      else slice workArray (Z.to_nat startIndex) (Z.to_nat endIndex)
           :: subworkArrays workArray workSize count' (i + 1)
  end.

(** [runParallelGradientDescent] up to its [if]: the optimum of one
    sub-worker's own [workArray]. *)
Definition localOptimum (dataNormalized data : InputData) (minX maxX : float)
    (workArray : list Hyperparameters) (outpath : string)
    : result BestResult :=
  forRange workArray
    (fun hyperParams best =>
       alpha <- index (Alpha hyperParams) 0 ;;
       numEpochs <- index (NumEpochs hyperParams) 0 ;;
       parameters <- runGradientDescent dataNormalized alpha numEpochs ;;
       let parameters := UnNormalize parameters data minX maxX in
       let predicted := Forecast (Mu parameters) (Beta parameters) (X data) in
       mse <- CalcMSE predicted (Y data) ;;
       Ok (if mse <? optimalMSE best
           then {| optimalHyperParams :=
                     {| Outpath := outpath;
                        Alpha := [alpha];
                        NumEpochs := [numEpochs];
                        Lambda := [];
                        MiniBatchSize := [] |};
                   optimalMSE := mse;
                   optimalModelParams :=
                     {| Mu := Mu parameters; Beta := Beta parameters |} |}
           else best))
    {| optimalHyperParams :=
         {| Outpath := outpath; Alpha := []; NumEpochs := [];
            Lambda := []; MiniBatchSize := [] |};
       optimalMSE := MaxFloat64;
       optimalModelParams := {| Mu := 0; Beta := 0 |} |}.

End Calibrate.

(** The rest of [runParallelGradientDescent], from its [if] to
    [group.Done()], is where the sub-workers of one Grid meet. A sub-worker
    is at one of these points: about to evaluate the condition
    [localOptimalMSE < *globalOptimalMSE], about to call
    [globalParamLock.Lock()], about to do the three assignments to the
    shared variables (taken as one step: only [*globalOptimalMSE], the first
    one assigned, is read by another sub-worker), about to call [Unlock()],
    or done. *)
Inductive programPoint : Type :=
| AtCompare
| AtLock
| AtAssign
| AtUnlock
| AtDone.

Record subWorker : Type := {
  localOptimal : BestResult;
  point : programPoint
}.

(** The variables behind the pointers [globalOptimal...] and the mutex,
    with the index of the sub-worker that holds it. *)
Record shared : Type := {
  globalOptimal : BestResult;
  globalParamLock : option nat
}.

Definition config : Type := (list subWorker * shared)%type.

Fixpoint moveTo (ws : list subWorker) (i : nat) (p : programPoint)
    : list subWorker :=
  match ws, i with
  | [], _ => []
  | w :: ws', O => {| localOptimal := localOptimal w; point := p |} :: ws'
  | w :: ws', S i' => w :: moveTo ws' i' p
  end.

(** One step of sub-worker [i], when it can take one: a sub-worker that is
    done, or that waits for a mutex held by another, cannot. *)
Definition stepSubWorker (i : nat) (c : config) : option config :=
  let '(ws, s) := c in
  match nth_error ws i with
  | None => None
  | Some w =>
      match point w with
      | AtCompare =>
          if optimalMSE (localOptimal w) <? optimalMSE (globalOptimal s)
          then Some (moveTo ws i AtLock, s)
          else Some (moveTo ws i AtDone, s)
      | AtLock =>
          match globalParamLock s with
          | None =>
              Some (moveTo ws i AtAssign,
                    {| globalOptimal := globalOptimal s;
                       globalParamLock := Some i |})
          | Some _ => None
          end
      | AtAssign =>
          Some (moveTo ws i AtUnlock,
                {| globalOptimal := localOptimal w;
                   globalParamLock := globalParamLock s |})
      | AtUnlock =>
          Some (moveTo ws i AtDone,
                {| globalOptimal := globalOptimal s;
                   globalParamLock := None |})
      | AtDone => None
      end
  end.

(** A schedule names the sub-worker that is given the processor next; one
    that cannot take a step then leaves everything as it is. *)
Fixpoint runSchedule (schedule : list nat) (c : config) : config :=
  match schedule with
  | [] => c
  | i :: schedule' =>
      match stepSubWorker i c with
      | Some c' => runSchedule schedule' c'
      | None => runSchedule schedule' c
      end
  end.

(** [group.Wait()] returns once every sub-worker is done. *)
Definition allDone (ws : list subWorker) : bool :=
  forallb (fun w => match point w with AtDone => true | _ => false end) ws.

(** The schedule in which every sub-worker does its whole update before the
    next one starts. *)
Definition oneAfterAnother (n : nat) : list nat :=
  flat_map (fun i => [i; i; i; i]) (seq 0 n).

Section Worker.
Context {lib : GoLibrary}.

Fixpoint localOptima (dataNormalized data : InputData) (minX maxX : float)
    (chunks : list (list Hyperparameters)) (outpath : string)
    : result (list BestResult) :=
  match chunks with
  | [] => Ok []
  | subworkArray :: chunks' =>
      best <- localOptimum dataNormalized data minX maxX subworkArray
                outpath ;;
      bests <- localOptima dataNormalized data minX maxX chunks' outpath ;;
      Ok (best :: bests)
  end.

(** One iteration of the loop over [taskCounter]: the Grid's optimum at
    [group.Wait()], if the schedule lets every sub-worker finish. *)
Definition workerTask (data : InputData) (minX maxX : float)
    (dataNormalized : InputData) (numThreads : Z)
    (hyperParams : Hyperparameters) (schedule : list nat)
    : result (option BestResult) :=
  let workSize := workSizePerThread hyperParams numThreads in
  let workArray := createArrayParamPermutations hyperParams in
  let chunks := subworkArrays workArray workSize (Z.to_nat numThreads) 0 in
  bests <- localOptima dataNormalized data minX maxX chunks
             (Outpath hyperParams) ;;
  let '(ws, s) :=
    runSchedule schedule
      (map (fun best => {| localOptimal := best; point := AtCompare |}) bests,
       {| globalOptimal :=
            {| optimalHyperParams :=
                 {| Outpath := Outpath hyperParams; Alpha := [];
                    NumEpochs := []; Lambda := []; MiniBatchSize := [] |};
               optimalMSE := MaxFloat64;
               optimalModelParams := {| Mu := 0; Beta := 0 |} |};
          globalParamLock := None |}) in
  Ok (if allDone ws then Some (globalOptimal s) else None).

End Worker.

(** ** Definitions used to state the properties *)

Section Statements.
Context {lib : GoLibrary}.

(** The optimum both searches start from. *)
Definition initialOptimum (outpath : string) : BestResult :=
  {| optimalHyperParams :=
       {| Outpath := outpath; Alpha := []; NumEpochs := [];
          Lambda := []; MiniBatchSize := [] |};
     optimalMSE := MaxFloat64;
     optimalModelParams := {| Mu := 0; Beta := 0 |} |}.

(** What the body of either search loop computes for one permutation before
    it compares: the point, its error and the parameters fitted there. *)
Definition evaluate (dataNormalized data : InputData) (minX maxX : float)
    (outpath : string) (hyperParams : Hyperparameters) : result BestResult :=
  alpha <- index (Alpha hyperParams) 0 ;;
  numEpochs <- index (NumEpochs hyperParams) 0 ;;
  parameters <- runGradientDescent dataNormalized alpha numEpochs ;;
  let parameters := UnNormalize parameters data minX maxX in
  let predicted := Forecast (Mu parameters) (Beta parameters) (X data) in
  mse <- CalcMSE predicted (Y data) ;;
  Ok {| optimalHyperParams :=
          {| Outpath := outpath; Alpha := [alpha]; NumEpochs := [numEpochs];
             Lambda := []; MiniBatchSize := [] |};
        optimalMSE := mse;
        optimalModelParams :=
          {| Mu := Mu parameters; Beta := Beta parameters |} |}.

Fixpoint evaluateAll (dataNormalized data : InputData) (minX maxX : float)
    (outpath : string) (workArray : list Hyperparameters)
    : result (list BestResult) :=
  match workArray with
  | [] => Ok []
  | hyperParams :: workArray' =>
      c <- evaluate dataNormalized data minX maxX outpath hyperParams ;;
      cs <- evaluateAll dataNormalized data minX maxX outpath workArray' ;;
      Ok (c :: cs)
  end.

(** The [if mse < optimalMSE { ... }] of the loops. *)
Definition improve (best candidate : BestResult) : BestResult :=
  if optimalMSE candidate <? optimalMSE best then candidate else best.

(** The optimum once the loop has been through [seen]. *)
Definition optimumAfter (outpath : string) (seen : list BestResult)
    : BestResult :=
  fold_left improve seen (initialOptimum outpath).

End Statements.

(** How the optimum moves while a loop goes through [candidates]: it starts
    at [math.MaxFloat64]; a candidate replaces it exactly when its error is
    strictly lower; it is never above what it was at an earlier moment; and
    at the end it is at most the error of every candidate whose error is a
    number. *)
Definition tracksTheLeast (outpath : string) (candidates : list BestResult)
    : Prop :=
  optimalMSE (optimumAfter outpath []) = MaxFloat64 /\
  (forall seen c rest,
     candidates = seen ++ c :: rest ->
     let before := optimumAfter outpath seen in
     let after := optimumAfter outpath (seen ++ [c]) in
     (after = c /\ (optimalMSE c <? optimalMSE before) = true) \/
     (after = before /\ (optimalMSE c <? optimalMSE before) = false)) /\
  (forall seen rest,
     candidates = seen ++ rest ->
     (optimalMSE (optimumAfter outpath candidates)
      <=? optimalMSE (optimumAfter outpath seen)) = true) /\
  (forall c,
     In c candidates ->
     is_nan (optimalMSE c) = false ->
     (optimalMSE (optimumAfter outpath candidates) <=? optimalMSE c) = true).

(** The sub-workers of one Grid as they arrive at the shared optimum, and
    when all are done. *)
Definition arriving (bests : list BestResult) : list subWorker :=
  map (fun best => {| localOptimal := best; point := AtCompare |}) bests.

Definition finished (bests : list BestResult) : list subWorker :=
  map (fun best => {| localOptimal := best; point := AtDone |}) bests.

Definition arrive (bests : list BestResult) (outpath : string) : config :=
  (arriving bests,
   {| globalOptimal := initialOptimum outpath; globalParamLock := None |}).

(** *** A library to run the program on examples

    [math.Pow] at the exponent 2, the only one the program passes, is the
    square; [int(f)] truncates towards zero, and is the smallest [int64]
    where amd64 gives that; the strings parsed are the unsigned decimal
    integers. *)

Definition truncate (f : float) : Z :=
  match Prim2SF f with
  | S754_zero _ => 0
  | S754_finite s m e =>
      let magnitude :=
        if (0 <=? e)%Z then (Z.pos m * 2 ^ e)%Z else (Z.pos m / 2 ^ (- e))%Z in
      if (magnitude <? 2 ^ 63)%Z then (if s then - magnitude else magnitude)%Z
      else (- 2 ^ 63)%Z
  | _ => (- 2 ^ 63)%Z
  end.

Fixpoint decimal (s : string) (acc : Z) : option Z :=
  match s with
  | EmptyString => Some acc
  | String c s' =>
      let n := Z.of_nat (Ascii.nat_of_ascii c) in
      if ((48 <=? n) && (n <=? 57))%Z then decimal s' (10 * acc + (n - 48))%Z
      else None
  end.

Definition parseDecimal (s : string) : float * option NumError :=
  match s with
  | EmptyString => (0, Some ErrSyntax)
  | _ =>
      match decimal s 0 with
      | Some n => (of_uint63 (Uint63.of_Z n), None)
      | None => (0, Some ErrSyntax)
      end
  end.

Definition exampleLibrary : GoLibrary.
Proof.
  refine {| math_Pow := fun x _ => x * x;
            float64_to_int := truncate;
            strconv_ParseFloat := parseDecimal |}.
  intros s. unfold parseDecimal.
  destruct s; [reflexivity|].
  destruct (decimal _ _); [discriminate|reflexivity].
Defined.

(** The configurations a single sub-worker with the local optimum [w] goes
    through, from its arrival at the shared optimum [g]. *)
Definition soloPhase (w g : BestResult) (k : nat) : config :=
  let at_ (p : programPoint) := [{| localOptimal := w; point := p |}] in
  let holds (best : BestResult) (holder : option nat) :=
    {| globalOptimal := best; globalParamLock := holder |} in
  if optimalMSE w <? optimalMSE g then
    match k with
    | 0 => (at_ AtCompare, holds g None)
    | 1 => (at_ AtLock, holds g None)
    | 2 => (at_ AtAssign, holds g (Some 0))
    | 3 => (at_ AtUnlock, holds w (Some 0))
    | _ => (at_ AtDone, holds w None)
    end%nat
  else
    match k with
    | 0 => (at_ AtCompare, holds g None)
    | _ => (at_ AtDone, holds g None)
    end%nat.

(** *** Inputs of the examples *)

(** Two points of the line [y = x]; two points above the same [x]. *)
Definition onTheLine : InputData := {| X := [0; 1]; Y := [0; 1] |}.

Definition constantX : InputData := {| X := [1; 1]; Y := [1; 2] |}.

(** A Grid of three permutations: one learning rate, three epoch counts. *)
Definition threeEpochCounts : Hyperparameters :=
  {| Outpath := "out.csv"; Alpha := [0.5]; NumEpochs := [1; 2; 3];
     Lambda := []; MiniBatchSize := [] |}.

(** A record that did not decode and left [j] empty, and one that did. *)
Definition emptyRecord : jsonInput :=
  {| jOutpath := EmptyString; jAlpha := []; jNumEpochs := []; jLambda := [];
     jMiniBatchSize := [] |}.

Definition goodRecord : jsonInput :=
  {| jOutpath := "out.csv"; jAlpha := ["1"%string];
     jNumEpochs := ["10"%string]; jLambda := []; jMiniBatchSize := [] |}.

(** A local optimum with the error [mse]. *)
Definition found (mse : float) : BestResult :=
  {| optimalHyperParams :=
       {| Outpath := "out.csv"; Alpha := [mse]; NumEpochs := [1];
          Lambda := []; MiniBatchSize := [] |};
     optimalMSE := mse;
     optimalModelParams := {| Mu := mse; Beta := mse |} |}.

(** ** The program as a process: its input, its files, and how it ends *)

(** [os.Stdin] as a [json.Decoder] reads it: the outcomes of the calls of
    [Decode] before the input ends, and how it ends. After a clean end every
    call returns [io.EOF]. An input that ends in a syntax error, or inside a
    value, leaves that error in the decoder: every later call returns it
    again, reads nothing and writes nothing to [j]. *)
Record Stdin : Type := {
  before : Decoder;
  endsInError : bool
}.

(** What the process gets from [fmt], [os] and [encoding/csv]: the text of
    [fmt.Sprintf("%f", x)], whether [os.Create] of a path returns no error,
    and whether [Write] of a record to the CSV writer of the file at a path
    returns no error. *)
Class Output : Type := {
  fmt_Sprintf_f : float -> string;
  os_Create : string -> bool;
  csv_Write : string -> list string -> bool
}.

(** How a call ends: it returns, it panics, it ends the process in
    [log.Fatal], it never returns, or the schedule it runs under is over
    before the call is. *)
Inductive ending : Type :=
| Returns
| Panics
| Exits
| NeverReturns
| Unfinished.

(** The outcome of a call that returns a value when it returns. *)
Inductive run (A : Type) : Type :=
| Returned (a : A)
| Panicked
| Exited.

Arguments Returned {A} a.
Arguments Panicked {A}.
Arguments Exited {A}.

(** *** Package [data]: loading the dataset *)

(** What [csvReader.Read] meets before the end of the file: the fields of a
    record, or text that is no record (a quote out of place). *)
Inductive csvLine : Type :=
| Fields (line : list string)
| Malformed.

Section Loading.
Context {lib : GoLibrary}.

(** The loop of [LoadTrainingData]. [FieldsPerRecord] is the field of the
    [csv.Reader] of that name: 0 in a new reader, set by [Read] to the
    number of fields of the first record, after which [Read] returns
    [ErrFieldCount] for a record with another number of fields. Any error
    but [io.EOF] ends the process in [log.Fatal]; what [strconv.ParseFloat]
    says of a field is not looked at. *)
Fixpoint loadLoop (FieldsPerRecord : nat) (lines : list csvLine)
    (xVector yVector : list float) : run InputData :=
  match lines with
  | [] => Returned {| X := xVector; Y := yVector |}
  | Malformed :: _ => Exited
  | Fields line :: lines' =>
      if (0 <? FieldsPerRecord)%nat
         && negb (length line =? FieldsPerRecord)%nat
      then Exited
      else
        let FieldsPerRecord :=
          if (FieldsPerRecord =? 0)%nat then length line
          else FieldsPerRecord in
        match index line 0 with
        | Panic => Panicked
        | Ok field0 =>
            let x := fst (strconv_ParseFloat field0) in
            match index line 1 with
            | Panic => Panicked
            | Ok field1 =>
                let y := fst (strconv_ParseFloat field1) in
                loadLoop FieldsPerRecord lines' (xVector ++ [x])
                  (yVector ++ [y])
            end
        end
  end.

(** [csvFile] is [None] when [os.Open] returns an error. *)
Definition LoadTrainingData (csvFile : option (list csvLine))
    : run InputData :=
  match csvFile with
  | None => Exited
  | Some lines => loadLoop 0 lines [] []
  end.

End Loading.

(** *** Package [main]: the searches with their input and their output *)

(** [float64(n)] for an [int] of 64 bits. *)
Definition float64_of_int (n : Z) : float :=
  if (n =? - 2 ^ 63)%Z then - 0x1p63
  else if (n <? 0)%Z then - of_uint63 (Uint63.of_Z (- n))
  else of_uint63 (Uint63.of_Z n).

(** [math.Ceil]: a [float64] with no fractional bit, an infinity and NaN
    are returned as they are; the ceiling of any other keeps its sign (that
    of -0.5 is -0) and is an integer below 2^53, which [float64] holds. *)
Definition math_Ceil (x : float) : float :=
  match Prim2SF x with
  | S754_finite s m e =>
      if (0 <=? e)%Z then x
      else if s then - of_uint63 (Uint63.of_Z (Z.pos m / 2 ^ (- e)))
      else of_uint63 (Uint63.of_Z (- (- Z.pos m / 2 ^ (- e))))
  | _ => x
  end.

Module main.

(** [int(math.Ceil(float64(numThreads) * (1.0/5.0)))]. The product is at
    most 2^63 / 5 in size, so the conversion to [int] is of a value that
    [int] holds, which is truncation on every implementation. *)
Definition numReaders (numThreads : Z) : Z :=
  truncate (math_Ceil (float64_of_int numThreads * (1 / 5))).

Section Process.
Context {lib : GoLibrary} {out : Output}.

(** One of the four [if ... != nil] of [writer]: the first value of an axis,
    or the text NA. The slices that reach [writer] are those of an optimum
    of a search, [nil] or with one element, and [nil] is the empty list. *)
Definition axisWrite (axis : list float) : string :=
  match axis with
  | [] => "NA"%string
  | value :: _ => fmt_Sprintf_f value
  end.

(** The records in the file at [Outpath] once [writer] has returned, or
    [None] when [writer] ends the process in [log.Fatal]: when the file
    cannot be created, or the row cannot be written. What [Write] returns
    for the header is not looked at. *)
Definition writer (globalOptimalHyperParams : Hyperparameters)
    (globalOptimalModelParams : Parameters) : option (list (list string)) :=
  if os_Create (Outpath globalOptimalHyperParams) then
    let header :=
      ["alpha"; "numEpochs"; "lambda"; "miniBatchSize"; "beta"; "mu"]%string
    in
    let headerWritten :=
      csv_Write (Outpath globalOptimalHyperParams) header in
    let alphaWrite := axisWrite (Alpha globalOptimalHyperParams) in
    let numEpochsWrite := axisWrite (NumEpochs globalOptimalHyperParams) in
    let lambdaWrite := axisWrite (Lambda globalOptimalHyperParams) in
    let miniBatchSizeWrite :=
      axisWrite (MiniBatchSize globalOptimalHyperParams) in
    let betaWrite := fmt_Sprintf_f (Beta globalOptimalModelParams) in
    let muWrite := fmt_Sprintf_f (Mu globalOptimalModelParams) in
    let stringHyperparam :=
      [alphaWrite; numEpochsWrite; lambdaWrite; miniBatchSizeWrite;
       betaWrite; muWrite] in
    if csv_Write (Outpath globalOptimalHyperParams) stringHyperparam
    then Some ((if headerWritten then [header] else [])
               ++ [stringHyperparam])
    else None
  else None.

(** [readJSONInputTasks] on any input: its loop has no way out but
    [io.EOF], so that on an input that ends in an error it appends a task
    per call without end, and does not return ([None]). *)
Definition readJSONInputTasks (stdin : Stdin)
    : option (list Hyperparameters) :=
  if endsInError stdin then None
  else Some (readJSONInputTasks (before stdin)).

(** What a call of [Decode] that returns the error kept in the decoder
    leaves in the new variable [j]. *)
Definition untouched : jsonInput :=
  {| jOutpath := EmptyString; jAlpha := []; jNumEpochs := [];
     jLambda := []; jMiniBatchSize := [] |}.

(** [readJSONInputTasksParallel] on any input and for any block size:
    [make(chan Hyperparameters, blockSize)] panics for a negative size; the
    loop stops at [io.EOF] only, so that on an input that ends in an error
    the batch is filled up to [blockSize] with the task of an empty
    record. *)
Definition readJSONInputTasksParallel (blockSize : Z) (dec : Stdin)
    : result (list Hyperparameters * Stdin) :=
  if (blockSize <? 0)%Z then Panic
  else
    let '(tasks, rest) :=
      readJSONInputTasksParallel (Z.to_nat blockSize) (before dec) in
    if endsInError dec
    then Ok (tasks
             ++ repeat (fillHyperparameters untouched)
                  (Z.to_nat blockSize - length tasks),
             {| before := rest; endsInError := true |})
    else Ok (tasks, {| before := rest; endsInError := false |}).

(** The loop over [hyperParamsTasks] of [gridSearchSequential]: the rows
    for which [writer] has returned, in order, and how the loop ends. *)
Fixpoint searchAndWrite (data : InputData) (minX maxX : float)
    (dataNormalized : InputData) (hyperParamsTasks : list Hyperparameters)
    : list (Hyperparameters * Parameters) * ending :=
  match hyperParamsTasks with
  | [] => ([], Returns)
  | hyperParams :: tasks' =>
      match searchSequential data minX maxX dataNormalized hyperParams with
      | Panic => ([], Panics)
      | Ok best =>
          match writer (optimalHyperParams best) (optimalModelParams best)
          with
          | None => ([], Exits)
          | Some _ =>
              let '(rows, e) :=
                searchAndWrite data minX maxX dataNormalized tasks' in
              ((optimalHyperParams best, optimalModelParams best) :: rows, e)
          end
      end
  end.

Definition gridSearchSequential (data : InputData) (stdin : Stdin)
    : list (Hyperparameters * Parameters) * ending :=
  match MinMax (X data) with
  | Panic => ([], Panics)
  | Ok (minX, maxX) =>
      let dataNormalized := Normalize data minX maxX in
      match readJSONInputTasks stdin with
      | None => ([], NeverReturns)
      | Some hyperParamsTasks =>
          searchAndWrite data minX maxX dataNormalized hyperParamsTasks
      end
  end.

(** One iteration of the loop over [taskCounter] of [worker], with its call
    of [writer]: the row written, or how the iteration ends otherwise. The
    sub-workers of the task run under [schedule]. *)
Definition workerIteration (data : InputData) (minX maxX : float)
    (dataNormalized : InputData) (numThreads : Z)
    (hyperParams : Hyperparameters) (schedule : list nat)
    : (Hyperparameters * Parameters) + ending :=
  match workerTask data minX maxX dataNormalized numThreads hyperParams
          schedule with
  | Panic => inr Panics
  | Ok None => inr Unfinished
  | Ok (Some best) =>
      match writer (optimalHyperParams best) (optimalModelParams best) with
      | None => inr Exits
      | Some _ => inl (optimalHyperParams best, optimalModelParams best)
      end
  end.

(** The loop of [worker] over the tasks of its channel, the sub-workers of
    task number [taskCounter] running under [scheduler taskCounter]. *)
Fixpoint workerLoop (data : InputData) (minX maxX : float)
    (dataNormalized : InputData) (numThreads : Z)
    (tasks : list Hyperparameters) (scheduler : nat -> list nat)
    (taskCounter : nat) : list (Hyperparameters * Parameters) * ending :=
  match tasks with
  | [] => ([], Returns)
  | hyperParams :: tasks' =>
      match workerIteration data minX maxX dataNormalized numThreads
              hyperParams (scheduler taskCounter) with
      | inr e => ([], e)
      | inl row =>
          let '(rows, e) :=
            workerLoop data minX maxX dataNormalized numThreads tasks'
              scheduler (S taskCounter) in
          (row :: rows, e)
      end
  end.

Definition worker (data : InputData) (numThreads : Z)
    (hyperparamsTaskChannel : list Hyperparameters)
    (scheduler : nat -> list nat)
    : list (Hyperparameters * Parameters) * ending :=
  match MinMax (X data) with
  | Panic => ([], Panics)
  | Ok (minX, maxX) =>
      let dataNormalized := Normalize data minX maxX in
      workerLoop data minX maxX dataNormalized numThreads
        hyperparamsTaskChannel scheduler 0
  end.








End Process.
End main.

(** An output for the examples: every path but the empty one can be
    created and every write succeeds; the examples do not look at the
    digits of a number. *)
Definition exampleOutput : Output :=
  {| fmt_Sprintf_f := fun _ => "%f"%string;
     os_Create := fun path => negb (String.eqb path EmptyString);
     csv_Write := fun _ _ => true |}.

(** ** Definitions used to state further properties *)

(** Between its [Lock()] and its [Unlock()]. *)
Definition inCriticalSection (w : subWorker) : Prop :=
  point w = AtAssign \/ point w = AtUnlock.

(** The mutex is held by the sub-workers that are in the critical section,
    and by no other. *)
Definition lockDiscipline (c : config) : Prop :=
  (forall i w, nth_error (fst c) i = Some w ->
               inCriticalSection w -> globalParamLock (snd c) = Some i) /\
  (forall i, globalParamLock (snd c) = Some i ->
             exists w, nth_error (fst c) i = Some w /\ inCriticalSection w).

(** *** More inputs of examples *)

(** A Grid with one permutation and two candidates on an axis that is not
    searched. *)
Definition twoLambdas : Hyperparameters :=
  {| Outpath := "out.csv"; Alpha := [0.5]; NumEpochs := [1];
     Lambda := [1; 2]; MiniBatchSize := [] |}.


(** What the search of [threeEpochCounts] finds on [onTheLine]. *)
Definition afterThreeEpochs : BestResult :=
  {| optimalHyperParams :=
       {| Outpath := "out.csv"; Alpha := [0.5]; NumEpochs := [3];
          Lambda := []; MiniBatchSize := [] |};
     optimalMSE := 0.0390625;
     optimalModelParams := {| Mu := 0.25; Beta := 0.625 |} |}.

(** * Properties *)

Unset Implicit Arguments.

(** ** Facts on [float64] *)

Lemma is_nan_SF (x : float) :
  is_nan x = match Prim2SF x with S754_nan => true | _ => false end.
Proof.
  unfold is_nan. rewrite FloatAxioms.eqb_spec.
  destruct (Prim2SF x) as [s|s| |s m e]; simpl; try reflexivity.
  - destruct s; reflexivity.
  - unfold SFeqb, SFcompare.
    destruct s; rewrite Z.compare_refl, Pos.compare_cont_refl; reflexivity.
Qed.

Lemma is_finite_SF (x : float) :
  is_finite x =
  match Prim2SF x with S754_nan | S754_infinity _ => false | _ => true end.
Proof.
  unfold is_finite. rewrite is_nan_SF. unfold is_infinity.
  rewrite FloatAxioms.eqb_spec, abs_spec.
  change (Prim2SF infinity) with (S754_infinity false).
  destruct (Prim2SF x) as [s|s| |s m e]; reflexivity.
Qed.

(** A step of length 0 along a finite gradient leaves 0 where it is. *)
Lemma zero_step (g : float) : is_finite g = true -> 0 - 0 * g = 0.
Proof.
  intros H. apply Prim2SF_inj.
  rewrite sub_spec, mul_spec. rewrite is_finite_SF in H.
  change (Prim2SF 0) with (S754_zero false).
  destruct (Prim2SF g) as [s|s| |s m e]; simpl in *; try discriminate;
    destruct s; reflexivity.
Qed.

Ltac sf_order :=
  unfold SFltb, SFleb, SFcompare;
  repeat match goal with
         | s : bool |- _ => destruct s
         end;
  repeat match goal with
         | |- context [(?a ?= ?b)%Z] => destruct (Z.compare_spec a b)
         | |- context [PosDef.Pos.compare_cont Eq ?a ?b] =>
             change (PosDef.Pos.compare_cont Eq a b) with (Pos.compare a b);
             destruct (Pos.compare_spec a b)
         end;
  simpl; try reflexivity; try discriminate; try (intros; exfalso; lia).

Lemma SFltb_SFleb_trans (a b c : spec_float) :
  SFltb a b = true -> SFleb b c = true -> SFleb a c = true.
Proof.
  destruct a as [s1|s1| |s1 m1 e1], b as [s2|s2| |s2 m2 e2],
    c as [s3|s3| |s3 m3 e3]; sf_order.
Qed.

Lemma SFleb_trans (a b c : spec_float) :
  SFleb a b = true -> SFleb b c = true -> SFleb a c = true.
Proof.
  destruct a as [s1|s1| |s1 m1 e1], b as [s2|s2| |s2 m2 e2],
    c as [s3|s3| |s3 m3 e3]; sf_order.
Qed.

Lemma SFltb_SFleb (a b : spec_float) : SFltb a b = true -> SFleb a b = true.
Proof.
  destruct a as [s1|s1| |s1 m1 e1], b as [s2|s2| |s2 m2 e2]; sf_order.
Qed.

Lemma SFleb_refl (a : spec_float) : a <> S754_nan -> SFleb a a = true.
Proof.
  destruct a as [s1|s1| |s1 m1 e1]; intros H; try congruence;
    unfold SFleb, SFcompare; try (destruct s1; reflexivity).
  destruct s1; rewrite Z.compare_refl, Pos.compare_cont_refl; reflexivity.
Qed.

Lemma SFltb_total (a b : spec_float) :
  a <> S754_nan -> b <> S754_nan -> SFltb a b = false -> SFleb b a = true.
Proof.
  destruct a as [s1|s1| |s1 m1 e1], b as [s2|s2| |s2 m2 e2];
    intros Ha Hb; try congruence; clear Ha Hb; sf_order.
Qed.

Lemma is_nan_false (x : float) : is_nan x = false <-> Prim2SF x <> S754_nan.
Proof.
  rewrite is_nan_SF. destruct (Prim2SF x); split; congruence.
Qed.

Lemma ltb_leb_trans (a b c : float) :
  (a <? b) = true -> (b <=? c) = true -> (a <=? c) = true.
Proof. rewrite ltb_spec, !leb_spec. apply SFltb_SFleb_trans. Qed.

Lemma leb_trans (a b c : float) :
  (a <=? b) = true -> (b <=? c) = true -> (a <=? c) = true.
Proof. rewrite !leb_spec. apply SFleb_trans. Qed.

Lemma ltb_leb (a b : float) : (a <? b) = true -> (a <=? b) = true.
Proof. rewrite ltb_spec, leb_spec. apply SFltb_SFleb. Qed.

Lemma leb_refl (a : float) : is_nan a = false -> (a <=? a) = true.
Proof. rewrite is_nan_false, leb_spec. apply SFleb_refl. Qed.

Lemma ltb_total (a b : float) :
  is_nan a = false -> is_nan b = false -> (a <? b) = false -> (b <=? a) = true.
Proof. rewrite !is_nan_false, ltb_spec, leb_spec. apply SFltb_total. Qed.

Lemma ltb_not_nan (a b : float) :
  (a <? b) = true -> is_nan a = false /\ is_nan b = false.
Proof.
  rewrite ltb_spec, !is_nan_SF. unfold SFltb.
  destruct (Prim2SF a), (Prim2SF b); simpl; intros H;
    try discriminate; split; reflexivity.
Qed.

Lemma SFltb_trans (a b c : spec_float) :
  SFltb a b = true -> SFltb b c = true -> SFltb a c = true.
Proof.
  destruct a as [s1|s1| |s1 m1 e1], b as [s2|s2| |s2 m2 e2],
    c as [s3|s3| |s3 m3 e3]; sf_order.
Qed.

Lemma SFltb_negative_trans (a b c : spec_float) :
  b <> S754_nan ->
  SFltb a b = false -> SFltb b c = false -> SFltb a c = false.
Proof.
  destruct a as [s1|s1| |s1 m1 e1], b as [s2|s2| |s2 m2 e2],
    c as [s3|s3| |s3 m3 e3]; intros Hb; try congruence; clear Hb; sf_order.
Qed.

Lemma ltb_trans (a b c : float) :
  (a <? b) = true -> (b <? c) = true -> (a <? c) = true.
Proof. rewrite !ltb_spec. apply SFltb_trans. Qed.

Lemma ltb_negative_trans (a b c : float) :
  is_nan b = false ->
  (a <? b) = false -> (b <? c) = false -> (a <? c) = false.
Proof. rewrite is_nan_false, !ltb_spec. apply SFltb_negative_trans. Qed.

(** ** Facts on loops *)

Lemma bind_Ok {A B : Type} (c : result A) (k : A -> result B) (b : B) :
  bind c k = Ok b -> exists a, c = Ok a /\ k a = Ok b.
Proof. destruct c as [a|]; simpl; [eauto | discriminate]. Qed.

Lemma index_Ok {A : Type} (s : list A) (i : nat) :
  i < length s -> exists a, index s i = Ok a.
Proof.
  intros H. unfold index.
  destruct (nth_error s i) eqn:E; [eauto|].
  apply nth_error_None in E. lia.
Qed.

Lemma forLoop_Ok {A : Type} (body : nat -> A -> result A) (n : nat) :
  forall first acc,
    (forall i a, first <= i < first + n -> exists a', body i a = Ok a') ->
    exists r, forLoop n first body acc = Ok r.
Proof.
  induction n as [|n IH]; intros first acc Hbody; simpl.
  - eauto.
  - destruct (Hbody first acc) as [a' Ha']; [lia|].
    rewrite Ha'. simpl. apply IH.
    intros i a Hi. apply Hbody. lia.
Qed.

(** ** The regression engine *)

Section EngineFacts.
Context {lib : GoLibrary}.

Lemma Forecast_length (mu beta : float) (x : list float) :
  length (Forecast mu beta x) = length x.
Proof. apply length_map. Qed.

Lemma calcGradientMu_Ok (predicted actual : list float) :
  length predicted <= length actual ->
  exists g, calcGradientMu predicted actual = Ok g.
Proof.
  intros H. unfold calcGradientMu.
  destruct (forLoop_Ok
              (fun i gradientMu =>
                 a <- index actual i ;;
                 p <- index predicted i ;;
                 Ok (gradientMu + (a - p)))
              (length predicted) 0 0) as [r Hr].
  - intros i acc Hi.
    destruct (index_Ok actual i) as [a Ha]; [lia|].
    destruct (index_Ok predicted i) as [p Hp]; [lia|].
    rewrite Ha, Hp. simpl. eauto.
  - rewrite Hr. simpl. eauto.
Qed.

Lemma calcGradientBeta_Ok (predicted : list float) (data : InputData) :
  length predicted <= length (Y data) ->
  length predicted <= length (X data) ->
  exists g, calcGradientBeta predicted data = Ok g.
Proof.
  intros HY HX. unfold calcGradientBeta.
  destruct (forLoop_Ok
              (fun i gradientBeta =>
                 y <- index (Y data) i ;;
                 p <- index predicted i ;;
                 x <- index (X data) i ;;
                 Ok (gradientBeta + ((y - p) * x)))
              (length predicted) 0 0) as [r Hr].
  - intros i acc Hi.
    destruct (index_Ok (Y data) i) as [y Hy]; [lia|].
    destruct (index_Ok predicted i) as [p Hp]; [lia|].
    destruct (index_Ok (X data) i) as [x Hx]; [lia|].
    rewrite Hy, Hp, Hx. simpl. eauto.
  - rewrite Hr. simpl. eauto.
Qed.

Lemma CalcMSE_Ok (predicted actual : list float) :
  length predicted <= length actual ->
  exists mse, CalcMSE predicted actual = Ok mse.
Proof.
  intros H. unfold CalcMSE.
  destruct (forLoop_Ok
              (fun i mse =>
                 p <- index predicted i ;;
                 a <- index actual i ;;
                 Ok (mse + math_Pow (p - a) 2))
              (length predicted) 0 0) as [r Hr].
  - intros i acc Hi.
    destruct (index_Ok predicted i) as [p Hp]; [lia|].
    destruct (index_Ok actual i) as [a Ha]; [lia|].
    rewrite Hp, Ha. simpl. eauto.
  - rewrite Hr. simpl. eauto.
Qed.

(** C9. On a dataset that has a Y value for every X value, one
    gradient-descent step returns
    [(mu - alpha * gMu, beta - alpha * gBeta)], where [gMu] and [gBeta] are
    both computed from the one prediction made with the parameters that came
    in: the new slope does not see the new intercept. *)
Theorem UpdateParams_simultaneous (parameters : Parameters)
    (data : InputData) (alpha : float) :
  length (X data) <= length (Y data) ->
  let predicted := Forecast (Mu parameters) (Beta parameters) (X data) in
  exists gMu gBeta,
    calcGradientMu predicted (Y data) = Ok gMu /\
    calcGradientBeta predicted data = Ok gBeta /\
    UpdateParams parameters data alpha =
      Ok {| Mu := Mu parameters - alpha * gMu;
            Beta := Beta parameters - alpha * gBeta |}.
Proof.
  intros Hlen predicted.
  assert (Hp : length predicted = length (X data))
    by apply Forecast_length.
  destruct (calcGradientMu_Ok predicted (Y data)) as [gMu HMu]; [lia|].
  destruct (calcGradientBeta_Ok predicted data) as [gBeta HBeta]; [lia|lia|].
  exists gMu, gBeta. repeat split; trivial.
  unfold UpdateParams. fold predicted. rewrite HMu. simpl.
  rewrite HBeta. reflexivity.
Qed.

Lemma UpdateParams_Ok (parameters : Parameters) (data : InputData)
    (alpha : float) :
  length (X data) <= length (Y data) ->
  exists parameters', UpdateParams parameters data alpha = Ok parameters'.
Proof.
  intros H. unfold UpdateParams.
  set (predicted := Forecast (Mu parameters) (Beta parameters) (X data)).
  assert (Hp : length predicted = length (X data))
    by apply Forecast_length.
  destruct (calcGradientMu_Ok predicted (Y data)) as [gMu HMu]; [lia|].
  destruct (calcGradientBeta_Ok predicted data) as [gBeta HBeta]; [lia|lia|].
  rewrite HMu. simpl. rewrite HBeta. simpl. eauto.
Qed.

Lemma UpdateParams_zero_rate (data : InputData) (gMu gBeta : float) :
  calcGradientMu (Forecast 0 0 (X data)) (Y data) = Ok gMu ->
  calcGradientBeta (Forecast 0 0 (X data)) data = Ok gBeta ->
  is_finite gMu = true ->
  is_finite gBeta = true ->
  UpdateParams {| Mu := 0; Beta := 0 |} data 0 = Ok {| Mu := 0; Beta := 0 |}.
Proof.
  intros HMu HBeta FMu FBeta. unfold UpdateParams. simpl.
  rewrite HMu. simpl. rewrite HBeta. simpl.
  rewrite (zero_step gMu FMu), (zero_step gBeta FBeta). reflexivity.
Qed.

(** The slope and the intercept that [UnNormalize] returns. *)
Lemma UnNormalize_fields (parameters : Parameters) (data : InputData)
    (minX maxX : float) :
  Mu (UnNormalize parameters data minX maxX) = Mu parameters /\
  Beta (UnNormalize parameters data minX maxX) =
    Beta parameters / (maxX - minX) - minX.
Proof. split; reflexivity. Qed.

End EngineFacts.

(** ** Reading the tasks and running gradient descent *)

Section CalibrateFacts.
Context {lib : GoLibrary}.

Lemma forLoop_fixed {A : Type} (body : nat -> A -> result A) (a : A) :
  (forall i, body i a = Ok a) ->
  forall n first, forLoop n first body a = Ok a.
Proof.
  intros H. induction n as [|n IH]; intros first; simpl.
  - reflexivity.
  - rewrite H. simpl. apply IH.
Qed.

(** C8, amended. Gradient descent with learning rate 0 returns (0, 0) for
    every epoch count, on every dataset on which the two partial derivatives
    taken at the parameters (0, 0) are finite numbers (neither NaN nor
    infinite); with no epoch to run it returns (0, 0) on every dataset. *)
Theorem runGradientDescent_zero_rate (data : InputData) (numEpochs : float) :
  ((0 < float64_to_int numEpochs)%Z ->
   exists gMu gBeta,
     calcGradientMu (Forecast 0 0 (X data)) (Y data) = Ok gMu /\
     calcGradientBeta (Forecast 0 0 (X data)) data = Ok gBeta /\
     is_finite gMu = true /\
     is_finite gBeta = true) ->
  runGradientDescent data 0 numEpochs = Ok {| Mu := 0; Beta := 0 |}.
Proof.
  intros H. unfold runGradientDescent.
  destruct (Z.to_nat (float64_to_int numEpochs)) as [|n] eqn:E.
  - reflexivity.
  - destruct H as (gMu & gBeta & HMu & HBeta & FMu & FBeta); [lia|].
    apply forLoop_fixed. intros _.
    exact (UpdateParams_zero_rate data gMu gBeta HMu HBeta FMu FBeta).
Qed.

Lemma runGradientDescent_Ok (dataNormalized : InputData)
    (alpha numEpochs : float) :
  length (X dataNormalized) <= length (Y dataNormalized) ->
  exists parameters,
    runGradientDescent dataNormalized alpha numEpochs = Ok parameters.
Proof.
  intros H. unfold runGradientDescent. apply forLoop_Ok.
  intros i p _. apply UpdateParams_Ok, H.
Qed.

Lemma stringToFloat64_length (input : list string) :
  length (stringToFloat64 input) = length input.
Proof. apply length_map. Qed.

Lemma stringToFloat64_nth (input : list string) (i : nat) (s : string) :
  nth_error input i = Some s ->
  nth_error (stringToFloat64 input) i = Some (fst (strconv_ParseFloat s)).
Proof.
  intros H. unfold stringToFloat64.
  rewrite nth_error_map, H. reflexivity.
Qed.

(** C10. The conversion keeps the length of its input, and at the place of
    every string that [strconv.ParseFloat] refuses as not a number stands
    0: nothing is skipped or reported, and the 0 is a candidate of the Grid
    built from the record like any other. *)
Theorem stringToFloat64_unparsable_is_zero (input : list string) :
  length (stringToFloat64 input) = length input /\
  (forall i s,
     nth_error input i = Some s ->
     snd (strconv_ParseFloat s) = Some ErrSyntax ->
     nth_error (stringToFloat64 input) i = Some 0) /\
  (forall j,
     Alpha (fillHyperparameters j) = stringToFloat64 (jAlpha j) /\
     NumEpochs (fillHyperparameters j) = stringToFloat64 (jNumEpochs j)).
Proof.
  split; [apply stringToFloat64_length|]. split.
  - intros i s Hi Herr.
    rewrite (stringToFloat64_nth input i s Hi).
    f_equal. apply strconv_ParseFloat_syntax, Herr.
  - intros j. split; reflexivity.
Qed.



End CalibrateFacts.

(** ** Examples of the regression engine and of the readers *)

(** C8, as stated, fails on a dataset whose X values are all equal: its
    normalization divides 0 by 0, and one epoch at learning rate 0 turns both
    parameters into NaN. *)
Lemma zero_rate_on_constant_X :
  MinMax (X constantX) = Ok (1, 1) /\
  runGradientDescent (lib := exampleLibrary) (Normalize constantX 1 1) 0 1
    = Ok {| Mu := nan; Beta := nan |} /\
  runGradientDescent (lib := exampleLibrary) (Normalize constantX 1 1) 0 1
    <> Ok {| Mu := 0; Beta := 0 |}.
Proof.
  split; [reflexivity|]. split; [vm_compute; reflexivity|].
  intros H.
  apply (f_equal (fun r => match r with
                           | Ok parameters => is_nan (Mu parameters)
                           | Panic => false
                           end)) in H.
  vm_compute in H. discriminate.
Qed.

Lemma runGradientDescent_zero_rate_witness :
  runGradientDescent (lib := exampleLibrary) onTheLine 0 1000
    = Ok {| Mu := 0; Beta := 0 |}.
Proof.
  apply (runGradientDescent_zero_rate (lib := exampleLibrary)
           onTheLine 1000).
  intros _. exists (-1), (-1). vm_compute. repeat split.
Defined.

(** On the two points of [y = x], from (0, 0) at rate 0.5: both parameters
    move to 0.5. The slope gradient at the prediction made with the new
    intercept would be -0.5, and the slope 0.25. *)
Example UpdateParams_on_the_line :
  UpdateParams {| Mu := 0; Beta := 0 |} onTheLine 0.5
  = Ok {| Mu := 0.5; Beta := 0.5 |} /\
  calcGradientBeta (Forecast 0.5 0 (X onTheLine)) onTheLine = Ok (-0.5).
Proof. split; vm_compute; reflexivity. Qed.

Lemma UpdateParams_simultaneous_witness :
  exists gMu gBeta,
    calcGradientMu (Forecast 0 0 (X onTheLine)) (Y onTheLine) = Ok gMu /\
    calcGradientBeta (Forecast 0 0 (X onTheLine)) onTheLine = Ok gBeta /\
    UpdateParams {| Mu := 0; Beta := 0 |} onTheLine 0.5 =
      Ok {| Mu := 0 - 0.5 * gMu; Beta := 0 - 0.5 * gBeta |}.
Proof.
  apply (UpdateParams_simultaneous {| Mu := 0; Beta := 0 |} onTheLine 0.5).
  simpl. lia.
Defined.

Lemma stringToFloat64_unparsable_is_zero_witness :
  nth_error (stringToFloat64 (lib := exampleLibrary)
               ["7"%string; "seven"%string]) 1%nat = Some 0.
Proof.
  apply (proj1 (proj2 (stringToFloat64_unparsable_is_zero
                         (lib := exampleLibrary)
                         ["7"%string; "seven"%string]))
           1%nat "seven"%string); reflexivity.
Defined.

(** C4 at the parameters (0, 1) with min = 1 and max = 2: the slope that
    comes back is 1 / (2 - 1) - 1 = 0, not 1 / (2 - 1) = 1; the intercept is
    the one that went in. *)
Theorem UnNormalize_subtracts_minX :
  UnNormalize {| Mu := 0; Beta := 1 |} onTheLine 1 2
    = {| Mu := 0; Beta := 0 |} /\
  Beta {| Mu := 0; Beta := 1 |} / (2 - 1) = 1.
Proof. split; reflexivity. Qed.

(** C3 at a stream of a record that fails to decode and a record that
    decodes, read with block size 2: the batch has two tasks, the first one
    built from the empty record, where the claim has the second one alone. *)
Theorem malformed_record_is_a_task :
  readJSONInputTasksParallel (lib := exampleLibrary) 2
    [DecodeError emptyRecord; Decoded goodRecord]
  = ([{| Outpath := EmptyString; Alpha := []; NumEpochs := []; Lambda := [];
         MiniBatchSize := [] |};
      {| Outpath := "out.csv"; Alpha := [1]; NumEpochs := [10];
         Lambda := []; MiniBatchSize := [] |}],
     []) /\
  readJSONInputTasks (lib := exampleLibrary)
    [DecodeError emptyRecord; Decoded goodRecord]
  = [{| Outpath := EmptyString; Alpha := []; NumEpochs := []; Lambda := [];
        MiniBatchSize := [] |};
     {| Outpath := "out.csv"; Alpha := [1]; NumEpochs := [10];
        Lambda := []; MiniBatchSize := [] |}].
Proof. split; vm_compute; reflexivity. Qed.

(** ** The sub-workers at the shared optimum *)

Lemma soloPhase_step (w g : BestResult) (i k : nat) :
  stepSubWorker i (soloPhase w g k) = None \/
  stepSubWorker i (soloPhase w g k) = Some (soloPhase w g (S k)).
Proof.
  unfold soloPhase.
  destruct (optimalMSE w <? optimalMSE g) eqn:E.
  - destruct i as [|i].
    + destruct k as [|[|[|[|k]]]]; simpl; rewrite ?E; auto.
    + left. destruct k as [|[|[|[|k]]]]; simpl; destruct i; reflexivity.
  - destruct i as [|i].
    + destruct k as [|k]; simpl; rewrite ?E; auto.
    + left. destruct k as [|k]; simpl; destruct i; reflexivity.
Qed.

Lemma soloPhase_run (w g : BestResult) (schedule : list nat) :
  forall k, exists k',
    runSchedule schedule (soloPhase w g k) = soloPhase w g k'.
Proof.
  induction schedule as [|i schedule IH]; intros k; simpl.
  - exists k. reflexivity.
  - destruct (soloPhase_step w g i k) as [E|E]; rewrite E; apply IH.
Qed.

Lemma soloPhase_done (w g : BestResult) (k : nat) :
  allDone (fst (soloPhase w g k)) = true ->
  globalOptimal (snd (soloPhase w g k)) = improve g w.
Proof.
  unfold soloPhase, improve.
  destruct (optimalMSE w <? optimalMSE g);
    destruct k as [|[|[|[|k]]]]; simpl; intros H;
    try discriminate; reflexivity.
Qed.

(** Whatever the schedule, a sub-worker that is alone improves the shared
    optimum as the sequential search would. *)
Lemma solo_update (w : BestResult) (outpath : string) (schedule : list nat) :
  allDone (fst (runSchedule schedule (arrive [w] outpath))) = true ->
  globalOptimal (snd (runSchedule schedule (arrive [w] outpath)))
  = improve (initialOptimum outpath) w.
Proof.
  assert (E0 : arrive [w] outpath = soloPhase w (initialOptimum outpath) 0).
  { unfold soloPhase, arrive.
    destruct (optimalMSE w <? optimalMSE (initialOptimum outpath));
      reflexivity. }
  rewrite E0.
  destruct (soloPhase_run w (initialOptimum outpath) schedule 0) as [k E].
  rewrite E. apply soloPhase_done.
Qed.

Section Merge.
Local Open Scope nat_scope.

Lemma nth_error_middle (done : list subWorker) (w : subWorker)
    (todo : list subWorker) :
  nth_error (done ++ w :: todo) (length done) = Some w.
Proof. rewrite nth_error_app2, Nat.sub_diag by lia. reflexivity. Qed.

Lemma moveTo_middle (done : list subWorker) (w : subWorker)
    (todo : list subWorker) (p : programPoint) :
  moveTo (done ++ w :: todo) (length done) p
  = done ++ {| localOptimal := localOptimal w; point := p |} :: todo.
Proof. induction done as [|d done IH]; simpl; congruence. Qed.

Lemma one_subworker_in_turn (done todo : list subWorker) (best g : BestResult)
    (rest : list nat) :
  runSchedule
    (length done :: length done :: length done :: length done :: rest)
    (done ++ {| localOptimal := best; point := AtCompare |} :: todo,
     {| globalOptimal := g; globalParamLock := None |})
  = runSchedule rest
      (done ++ {| localOptimal := best; point := AtDone |} :: todo,
       {| globalOptimal := improve g best; globalParamLock := None |}).
Proof.
  unfold improve.
  destruct (optimalMSE best <? optimalMSE g)%float eqn:E;
    repeat (cbn [runSchedule]; unfold stepSubWorker;
            rewrite nth_error_middle; cbn [point localOptimal globalOptimal
                                             globalParamLock];
            rewrite ?E, ?moveTo_middle; cbn [localOptimal]);
    reflexivity.
Qed.

Lemma oneAfterAnother_from (todo : list BestResult) :
  forall (done : list BestResult) (g : BestResult),
    runSchedule
      (flat_map (fun i => [i; i; i; i]) (seq (length done) (length todo)))
      (finished done ++ arriving todo,
       {| globalOptimal := g; globalParamLock := None |})
    = (finished (done ++ todo),
       {| globalOptimal := fold_left improve todo g;
          globalParamLock := None |}).
Proof.
  induction todo as [|best todo IH]; intros done g.
  - simpl. rewrite !app_nil_r. reflexivity.
  - cbn [length seq flat_map app arriving map fold_left].
    replace (length done) with (length (finished done)) at 1 2 3 4
      by apply length_map.
    fold (arriving todo).
    rewrite one_subworker_in_turn.
    replace (finished done
             ++ {| localOptimal := best; point := AtDone |} :: arriving todo)
      with (finished (done ++ [best]) ++ arriving todo)
      by (unfold finished; rewrite map_app, <- app_assoc; reflexivity).
    replace (S (length done)) with (length (done ++ [best]))
      by (rewrite length_app; simpl; lia).
    rewrite IH, <- app_assoc. reflexivity.
Qed.

(** When the sub-workers come one after the other, the shared optimum ends
    as the fold of their local optima. *)
Lemma oneAfterAnother_merge (bests : list BestResult) (outpath : string) :
  runSchedule (oneAfterAnother (length bests)) (arrive bests outpath)
  = (finished bests,
     {| globalOptimal := fold_left improve bests (initialOptimum outpath);
        globalParamLock := None |}).
Proof. apply (oneAfterAnother_from bests []). Qed.

End Merge.

(** A sub-worker evaluates the condition whoever holds the lock, and
    holds no lock for it. *)
Lemma compare_needs_no_lock (ws : list subWorker) (s : shared) (i : nat)
    (w : subWorker) :
  nth_error ws i = Some w ->
  point w = AtCompare ->
  exists ws',
    stepSubWorker i (ws, s) = Some (ws', s) /\
    ws' = moveTo ws i
            (if optimalMSE (localOptimal w) <? optimalMSE (globalOptimal s)
             then AtLock else AtDone).
Proof.
  intros Hw Hp. unfold stepSubWorker. rewrite Hw, Hp.
  destruct (optimalMSE (localOptimal w) <? optimalMSE (globalOptimal s));
    eexists; split; reflexivity.
Qed.

(** C7 with two sub-workers whose local errors are 1 and 5: both evaluate
    the condition before either has the lock, and when the one with error 5
    gets the lock last its assignment stands, although the other had
    found 1; had they come one after the other, 1 would stand. *)
Theorem update_can_be_lost :
  let c := arrive [found 1; found 5] "out.csv" in
  let early := runSchedule [0; 1]%nat c in
  let late := runSchedule [0; 1; 0; 0; 0; 1; 1; 1]%nat c in
  let serial := runSchedule (oneAfterAnother 2) c in
  (map point (fst early) = [AtLock; AtLock] /\
   globalParamLock (snd early) = None) /\
  (allDone (fst late) = true /\ optimalMSE (globalOptimal (snd late)) = 5) /\
  (allDone (fst serial) = true /\
   optimalMSE (globalOptimal (snd serial)) = 1).
Proof. vm_compute. repeat split. Qed.

(** ** The chunks of a Grid *)

Section Chunks.
Local Open Scope nat_scope.

Lemma firstn_plus {A : Type} (n m : nat) (l : list A) :
  n <= length l ->
  firstn (n + m) l = firstn n l ++ firstn m (skipn n l).
Proof.
  intros H. rewrite <- (firstn_skipn n l) at 1.
  assert (E : length (firstn n l) = n) by (rewrite length_firstn; lia).
  rewrite <- E at 1. apply firstn_app_2.
Qed.

Lemma subworkArrays_from (workArray : list Hyperparameters) (W : nat) :
  0 < W ->
  forall count k,
    concat (subworkArrays workArray (Z.of_nat W) count (Z.of_nat k))
    = firstn (W * Nat.min count (length (skipn (k * W) workArray) / W))
        (skipn (k * W) workArray).
Proof.
  intros HW. induction count as [|count IH]; intros k; simpl subworkArrays.
  - rewrite Nat.mul_0_r. reflexivity.
  - unfold len.
    replace ((Z.of_nat k + 1) * Z.of_nat W)%Z
      with (Z.of_nat (S k * W)) by lia.
    replace (Z.of_nat k * Z.of_nat W)%Z with (Z.of_nat (k * W)) by lia.
    destruct (Z.ltb_spec (Z.of_nat (length workArray)) (Z.of_nat (S k * W)))
      as [Hlt|Hge].
    + rewrite Nat.div_small by (rewrite length_skipn; lia).
      rewrite Nat.min_0_r, Nat.mul_0_r. reflexivity.
    + replace (Z.of_nat k + 1)%Z with (Z.of_nat (S k)) by lia.
      cbn [concat]. rewrite IH, !Nat2Z.id.
      set (r := skipn (k * W) workArray).
      assert (Hr : W <= length r) by (unfold r; rewrite length_skipn; lia).
      replace (skipn (S k * W) workArray) with (skipn W r)
        by (unfold r; rewrite skipn_skipn; f_equal; lia).
      unfold slice. replace (S k * W - k * W) with W by lia.
      replace (length r / W) with (S (length (skipn W r) / W)).
      * rewrite <- Nat.succ_min_distr, Nat.mul_succ_r, Nat.add_comm.
        symmetry. apply firstn_plus, Hr.
      * rewrite length_skipn.
        replace (length r) with (1 * W + (length r - W)) at 2 by lia.
        rewrite Nat.div_add_l by lia. reflexivity.
Qed.

(** With [numThreads] threads for a work size of [W > 0], the chunks are,
    in order and without overlap, the first [W * min numThreads (L / W)]
    of the [L] permutations. *)
Lemma subworkArrays_concat (workArray : list Hyperparameters) (W count : nat) :
  0 < W ->
  concat (subworkArrays workArray (Z.of_nat W) count 0)
  = firstn (W * Nat.min count (length workArray / W)) workArray.
Proof.
  intros HW. apply (subworkArrays_from workArray W HW count 0).
Qed.

Lemma subworkArrays_complete_iff (workArray : list Hyperparameters)
    (W count : nat) :
  0 < W ->
  length workArray <= W * count ->
  (concat (subworkArrays workArray (Z.of_nat W) count 0) = workArray
   <-> length workArray mod W = 0).
Proof.
  intros HW Hcount. rewrite subworkArrays_concat by exact HW.
  assert (Hq : length workArray / W <= count).
  { apply Nat.Div0.div_le_upper_bound. lia. }
  rewrite Nat.min_r by exact Hq.
  pose proof (Nat.div_mod_eq (length workArray) W) as D.
  split.
  - intros E. apply (f_equal (@length _)) in E.
    rewrite length_firstn in E. lia.
  - intros M. apply firstn_all2. lia.
Qed.

Lemma createArrayParamPermutations_length (hyperParams : Hyperparameters) :
  length (createArrayParamPermutations hyperParams)
  = length (Alpha hyperParams) * length (NumEpochs hyperParams).
Proof.
  unfold createArrayParamPermutations.
  induction (Alpha hyperParams) as [|alpha alphas IH]; simpl.
  - reflexivity.
  - rewrite length_app, length_map, IH. reflexivity.
Qed.

(** X18. For a Grid with candidates on its two searched axes and at most
    one on each of the other two, the chunks of [worker] are the whole work
    exactly when the work size divides the number of permutations. *)
Lemma worker_chunks_complete_iff (hyperParams : Hyperparameters)
    (numThreads : Z) :
  (1 <= numThreads)%Z ->
  Alpha hyperParams <> [] ->
  NumEpochs hyperParams <> [] ->
  length (Lambda hyperParams) <= 1 ->
  length (MiniBatchSize hyperParams) <= 1 ->
  let workArray := createArrayParamPermutations hyperParams in
  let workSize := workSizePerThread hyperParams numThreads in
  (concat (subworkArrays workArray workSize (Z.to_nat numThreads) 0)
   = workArray
   <-> (len workArray mod workSize = 0)%Z).
Proof.
  intros HT Ha He Hl Hm workArray workSize.
  assert (HN : numTotalParamSets hyperParams = len workArray).
  { unfold numTotalParamSets, workArray, len.
    rewrite createArrayParamPermutations_length.
    destruct (Alpha hyperParams); [congruence|].
    destruct (NumEpochs hyperParams); [congruence|].
    simpl length in *. nia. }
  assert (HL : (1 <= len workArray)%Z).
  { unfold len, workArray. rewrite createArrayParamPermutations_length.
    destruct (Alpha hyperParams); [congruence|].
    destruct (NumEpochs hyperParams); [congruence|].
    simpl length. nia. }
  assert (HW : (1 <= workSize /\ len workArray <= workSize * numThreads)%Z).
  { unfold workSize, workSizePerThread. rewrite HN.
    pose proof (Z.div_mod (- len workArray) numThreads) as D.
    pose proof (Z.mod_pos_bound (- len workArray) numThreads) as B.
    nia. }
  destruct HW as [HW1 HW2].
  rewrite <- (Z2Nat.id workSize) at 1 by lia.
  rewrite subworkArrays_complete_iff.
  - unfold len in *.
    rewrite <- (Z2Nat.id workSize) at 2 by lia.
    rewrite <- Nat2Z.inj_mod. lia.
  - lia.
  - unfold len in *. nia.
Qed.

End Chunks.

(** C1 at a Grid of three permutations and two threads: the work size is 2,
    the only sub-worker launched gets the first two permutations, and the
    third one is in no chunk. *)
Theorem trailing_chunk_is_dropped :
  let workArray := createArrayParamPermutations threeEpochCounts in
  let chunks :=
    subworkArrays workArray (workSizePerThread threeEpochCounts 2)
      (Z.to_nat 2) 0 in
  length workArray = 3%nat /\
  workSizePerThread threeEpochCounts 2 = 2%Z /\
  chunks = [firstn 2 workArray] /\
  length (concat chunks) = 2%nat.
Proof. vm_compute. repeat split. Qed.

(** ** The two searches as folds *)

Lemma fold_improve_not_nan (candidates : list BestResult) :
  forall best,
    is_nan (optimalMSE best) = false ->
    is_nan (optimalMSE (fold_left improve candidates best)) = false.
Proof.
  induction candidates as [|c cs IH]; intros best H; simpl; trivial.
  apply IH. unfold improve.
  destruct (optimalMSE c <? optimalMSE best) eqn:E; trivial.
  apply ltb_not_nan in E. tauto.
Qed.

Lemma improve_le (best c : BestResult) :
  is_nan (optimalMSE best) = false ->
  (optimalMSE (improve best c) <=? optimalMSE best) = true.
Proof.
  intros H. unfold improve.
  destruct (optimalMSE c <? optimalMSE best) eqn:E.
  - apply ltb_leb, E.
  - apply leb_refl, H.
Qed.

Lemma fold_improve_le (candidates : list BestResult) :
  forall best,
    is_nan (optimalMSE best) = false ->
    (optimalMSE (fold_left improve candidates best) <=? optimalMSE best)
    = true.
Proof.
  induction candidates as [|c cs IH]; intros best H; simpl.
  - apply leb_refl, H.
  - apply leb_trans with (optimalMSE (improve best c)).
    + apply IH.
      apply (fold_improve_not_nan [c] best H).
    + apply improve_le, H.
Qed.

Lemma fold_improve_least (candidates : list BestResult) :
  forall best c,
    is_nan (optimalMSE best) = false ->
    In c candidates ->
    is_nan (optimalMSE c) = false ->
    (optimalMSE (fold_left improve candidates best) <=? optimalMSE c) = true.
Proof.
  induction candidates as [|c' cs IH]; intros best c Hb Hin Hc; simpl in *;
    [contradiction|].
  destruct Hin as [E|Hin].
  - subst c'.
    apply leb_trans with (optimalMSE (improve best c)).
    + apply fold_improve_le. apply (fold_improve_not_nan [c] best Hb).
    + unfold improve.
      destruct (optimalMSE c <? optimalMSE best) eqn:L.
      * apply leb_refl, Hc.
      * apply ltb_total; assumption.
  - apply IH; trivial. apply (fold_improve_not_nan [c'] best Hb).
Qed.

Lemma MaxFloat64_not_nan : is_nan MaxFloat64 = false.
Proof. reflexivity. Qed.

Lemma fold_tracksTheLeast (outpath : string) (candidates : list BestResult) :
  tracksTheLeast outpath candidates.
Proof.
  unfold tracksTheLeast, optimumAfter. repeat split.
  - intros seen c rest _. rewrite fold_left_app. simpl.
    set (before := fold_left improve seen (initialOptimum outpath)).
    unfold improve.
    destruct (optimalMSE c <? optimalMSE before);
      [left | right]; split; reflexivity.
  - intros seen rest E. subst candidates. rewrite fold_left_app.
    apply fold_improve_le, fold_improve_not_nan, MaxFloat64_not_nan.
  - intros c Hin Hc. apply fold_improve_least; trivial.
Qed.

Section SearchFacts.
Context {lib : GoLibrary}.
Variables (dataNormalized data : InputData) (minX maxX : float).

(** One turn of the loop of a sub-worker: evaluate, then compare. *)
Lemma localOptimum_fold (outpath : string) (workArray : list Hyperparameters) :
  forall best,
    forRange workArray
      (fun hyperParams best =>
         alpha <- index (Alpha hyperParams) 0 ;;
         numEpochs <- index (NumEpochs hyperParams) 0 ;;
         parameters <- runGradientDescent dataNormalized alpha numEpochs ;;
         let parameters := UnNormalize parameters data minX maxX in
         let predicted :=
           Forecast (Mu parameters) (Beta parameters) (X data) in
         mse <- CalcMSE predicted (Y data) ;;
         Ok (if mse <? optimalMSE best
             then {| optimalHyperParams :=
                       {| Outpath := outpath;
                          Alpha := [alpha];
                          NumEpochs := [numEpochs];
                          Lambda := [];
                          MiniBatchSize := [] |};
                     optimalMSE := mse;
                     optimalModelParams :=
                       {| Mu := Mu parameters; Beta := Beta parameters |} |}
             else best))
      best
    = (candidates <- evaluateAll dataNormalized data minX maxX outpath
                       workArray ;;
       Ok (fold_left improve candidates best)).
Proof.
  induction workArray as [|p workArray IH]; intros best; simpl.
  - reflexivity.
  - unfold evaluate.
    destruct (index (Alpha p) 0) as [alpha|]; simpl; trivial.
    destruct (index (NumEpochs p) 0) as [numEpochs|]; simpl; trivial.
    destruct (runGradientDescent dataNormalized alpha numEpochs)
      as [parameters|]; simpl; trivial.
    destruct (CalcMSE _ (Y data)) as [mse|]; simpl; trivial.
    rewrite IH.
    destruct (evaluateAll _ _ _ _ _ workArray); reflexivity.
Qed.

Lemma evaluateAll_app (outpath : string) (l1 l2 : list Hyperparameters) :
  evaluateAll dataNormalized data minX maxX outpath (l1 ++ l2)
  = (c1 <- evaluateAll dataNormalized data minX maxX outpath l1 ;;
     c2 <- evaluateAll dataNormalized data minX maxX outpath l2 ;;
     Ok (c1 ++ c2)).
Proof.
  induction l1 as [|p l1 IH]; simpl.
  - destruct (evaluateAll _ _ _ _ _ l2); reflexivity.
  - destruct (evaluate _ _ _ _ _ p); simpl; trivial.
    rewrite IH.
    destruct (evaluateAll _ _ _ _ _ l1); simpl; trivial.
    destruct (evaluateAll _ _ _ _ _ l2); reflexivity.
Qed.

Lemma searchSequential_fold (hyperParams : Hyperparameters) :
  searchSequential data minX maxX dataNormalized hyperParams
  = (candidates <- evaluateAll dataNormalized data minX maxX
                     (Outpath hyperParams)
                     (createArrayParamPermutations hyperParams) ;;
     Ok (optimumAfter (Outpath hyperParams) candidates)).
Proof.
  unfold searchSequential, optimumAfter, createArrayParamPermutations.
  fold (initialOptimum (Outpath hyperParams)).
  generalize (initialOptimum (Outpath hyperParams)) as best.
  induction (Alpha hyperParams) as [|alpha alphas IH]; intros best; simpl.
  - reflexivity.
  - rewrite evaluateAll_app.
    match goal with
    | |- bind (forRange _ ?body best) _ = _ =>
        assert (Inner : forall epochs best,
                  forRange epochs body best
                  = forRange
                      (map (fun numEpochs =>
                              {| Outpath := Outpath hyperParams;
                                 Alpha := [alpha];
                                 NumEpochs := [numEpochs];
                                 Lambda := [];
                                 MiniBatchSize := [] |}) epochs)
                      (fun hyperParams' best =>
                         alpha <- index (Alpha hyperParams') 0 ;;
                         numEpochs <- index (NumEpochs hyperParams') 0 ;;
                         parameters <-
                           runGradientDescent dataNormalized alpha numEpochs ;;
                         let parameters :=
                           UnNormalize parameters data minX maxX in
                         let predicted :=
                           Forecast (Mu parameters) (Beta parameters)
                             (X data) in
                         mse <- CalcMSE predicted (Y data) ;;
                         Ok (if mse <? optimalMSE best
                             then {| optimalHyperParams :=
                                       {| Outpath := Outpath hyperParams;
                                          Alpha := [alpha];
                                          NumEpochs := [numEpochs];
                                          Lambda := [];
                                          MiniBatchSize := [] |};
                                     optimalMSE := mse;
                                     optimalModelParams :=
                                       {| Mu := Mu parameters;
                                          Beta := Beta parameters |} |}
                             else best))
                      best)
    end.
    { induction epochs as [|e epochs IHe]; intros b; simpl; trivial.
      destruct (runGradientDescent dataNormalized alpha e); simpl; trivial.
      destruct (CalcMSE _ (Y data)); simpl; trivial. }
    rewrite Inner, localOptimum_fold.
    destruct (evaluateAll _ _ _ _ _ (map _ (NumEpochs hyperParams)))
      as [c1|]; simpl; trivial.
    rewrite IH.
    destruct (evaluateAll _ _ _ _ _ (flat_map _ alphas)) as [c2|];
      simpl; trivial.
    rewrite fold_left_app. reflexivity.
Qed.

Lemma localOptimum_is_fold (outpath : string)
    (workArray : list Hyperparameters) :
  localOptimum dataNormalized data minX maxX workArray outpath
  = (candidates <- evaluateAll dataNormalized data minX maxX outpath
                     workArray ;;
     Ok (optimumAfter outpath candidates)).
Proof. unfold localOptimum. apply localOptimum_fold. Qed.

Hypothesis enoughY : length (X data) <= length (Y data).
Hypothesis enoughYNormalized :
  length (X dataNormalized) <= length (Y dataNormalized).

Lemma evaluateAll_Ok (outpath : string) (workArray : list Hyperparameters) :
  Forall (fun p => Alpha p <> [] /\ NumEpochs p <> []) workArray ->
  exists candidates,
    evaluateAll dataNormalized data minX maxX outpath workArray
    = Ok candidates /\
    length candidates = length workArray.
Proof.
  induction 1 as [|p workArray [Ha He] _ IH]; simpl.
  - exists []. split; reflexivity.
  - unfold evaluate.
    destruct (Alpha p) as [|alpha ?]; [congruence|].
    destruct (NumEpochs p) as [|numEpochs ?]; [congruence|]. simpl.
    destruct (runGradientDescent_Ok dataNormalized alpha numEpochs
                enoughYNormalized) as [parameters E].
    rewrite E. simpl.
    match goal with
    | |- context [CalcMSE ?predicted ?actual] =>
        destruct (CalcMSE_Ok predicted actual) as [mse M]
    end.
    { rewrite Forecast_length. exact enoughY. }
    rewrite M. simpl.
    destruct IH as (cs & C & L). rewrite C. simpl.
    eexists. split; [reflexivity|]. simpl. congruence.
Qed.

End SearchFacts.

Lemma permutations_are_points (hyperParams : Hyperparameters) :
  Forall (fun p => Alpha p <> [] /\ NumEpochs p <> [])
    (createArrayParamPermutations hyperParams).
Proof.
  apply Forall_forall. intros p Hin.
  unfold createArrayParamPermutations in Hin.
  apply in_flat_map in Hin. destruct Hin as (alpha & _ & Hin).
  apply in_map_iff in Hin. destruct Hin as (numEpochs & E & _).
  subst p. simpl. split; discriminate.
Qed.

Lemma slice_incl {A : Type} (s : list A) (a b : nat) (x : A) :
  In x (slice s a b) -> In x s.
Proof.
  unfold slice. intros H.
  rewrite <- (firstn_skipn a s). apply in_or_app. right.
  rewrite <- (firstn_skipn (b - a) (skipn a s)). apply in_or_app. left.
  exact H.
Qed.

Lemma subworkArrays_incl (workArray : list Hyperparameters) (workSize : Z)
    (count : nat) :
  forall i chunk p,
    In chunk (subworkArrays workArray workSize count i) ->
    In p chunk -> In p workArray.
Proof.
  induction count as [|count IH]; intros i chunk p Hc Hp; simpl in Hc.
  - contradiction.
  - destruct (len workArray <? (i + 1) * workSize)%Z; [contradiction|].
    destruct Hc as [E|Hc].
    + subst chunk. eapply slice_incl, Hp.
    + eapply IH; eassumption.
Qed.

Section Optimum.
Context {lib : GoLibrary}.

(** C5, amended. On a dataset with a Y value for every X value, the
    sequential search of a Grid, and the search of a sub-worker through a
    chunk of the Grid's permutations, evaluate every permutation they are
    given and return the optimum of a loop that starts at [math.MaxFloat64]
    (not at an infinity), replaces the optimum exactly when a permutation's
    error is strictly lower, never raises it, and ends at most at the error
    of every permutation evaluated whose error is not NaN. *)
Theorem best_so_far_is_least (data dataNormalized : InputData)
    (minX maxX : float) (hyperParams : Hyperparameters) :
  length (X data) <= length (Y data) ->
  length (X dataNormalized) <= length (Y dataNormalized) ->
  (exists candidates,
     evaluateAll dataNormalized data minX maxX (Outpath hyperParams)
       (createArrayParamPermutations hyperParams) = Ok candidates /\
     searchSequential data minX maxX dataNormalized hyperParams
     = Ok (optimumAfter (Outpath hyperParams) candidates) /\
     tracksTheLeast (Outpath hyperParams) candidates) /\
  (forall workSize count chunk,
     In chunk
       (subworkArrays (createArrayParamPermutations hyperParams) workSize
          count 0) ->
     exists candidates,
       evaluateAll dataNormalized data minX maxX (Outpath hyperParams) chunk
       = Ok candidates /\
       localOptimum dataNormalized data minX maxX chunk (Outpath hyperParams)
       = Ok (optimumAfter (Outpath hyperParams) candidates) /\
       tracksTheLeast (Outpath hyperParams) candidates).
Proof.
  intros HY HYn. split.
  - destruct (evaluateAll_Ok dataNormalized data minX maxX HY HYn
                (Outpath hyperParams)
                (createArrayParamPermutations hyperParams)
                (permutations_are_points hyperParams)) as (cs & E & _).
    exists cs. split; [exact E|]. split.
    + rewrite searchSequential_fold, E. reflexivity.
    + apply fold_tracksTheLeast.
  - intros workSize count chunk Hin.
    assert (Hpts : Forall (fun p => Alpha p <> [] /\ NumEpochs p <> []) chunk).
    { apply Forall_forall. intros p Hp.
      pose proof (permutations_are_points hyperParams) as F.
      rewrite Forall_forall in F. apply F.
      eapply subworkArrays_incl; eassumption. }
    destruct (evaluateAll_Ok dataNormalized data minX maxX HY HYn
                (Outpath hyperParams) chunk Hpts) as (cs & E & _).
    exists cs. split; [exact E|]. split.
    + rewrite localOptimum_is_fold, E. reflexivity.
    + apply fold_tracksTheLeast.
Qed.

Lemma searchSequential_Ok (data dataNormalized : InputData)
    (minX maxX : float) (hyperParams : Hyperparameters) :
  length (X data) <= length (Y data) ->
  length (X dataNormalized) <= length (Y dataNormalized) ->
  exists best,
    searchSequential data minX maxX dataNormalized hyperParams = Ok best.
Proof.
  intros HY HYn.
  destruct (evaluateAll_Ok dataNormalized data minX maxX HY HYn
              (Outpath hyperParams)
              (createArrayParamPermutations hyperParams)
              (permutations_are_points hyperParams)) as (cs & E & _).
  rewrite searchSequential_fold, E. simpl. eauto.
Qed.

Lemma MinMax_empty : MinMax [] = Panic.
Proof. reflexivity. Qed.

Lemma MinMax_Ok (arr : list float) :
  arr <> [] -> exists minX maxX, MinMax arr = Ok (minX, maxX).
Proof.
  destruct arr as [|first arr]; [congruence|]. intros _.
  unfold MinMax. simpl index. simpl bind.
  destruct (fold_left _ _ _) as [max min]. eauto.
Qed.

Lemma Normalize_lengths (rawData : InputData) (minX maxX : float) :
  length (X (Normalize rawData minX maxX)) = length (X rawData) /\
  Y (Normalize rawData minX maxX) = Y rawData.
Proof. split; [apply length_map | reflexivity]. Qed.

End Optimum.

(** ** One Grid with one thread and with two *)

Lemma workerTask_unfold {lib : GoLibrary} (data : InputData)
    (minX maxX : float) (dataNormalized : InputData) (numThreads : Z)
    (hyperParams : Hyperparameters) (schedule : list nat) :
  workerTask data minX maxX dataNormalized numThreads hyperParams schedule
  = (bests <- localOptima dataNormalized data minX maxX
                (subworkArrays (createArrayParamPermutations hyperParams)
                   (workSizePerThread hyperParams numThreads)
                   (Z.to_nat numThreads) 0)
                (Outpath hyperParams) ;;
     let final := runSchedule schedule (arrive bests (Outpath hyperParams)) in
     Ok (if allDone (fst final) then Some (globalOptimal (snd final))
         else None)).
Proof.
  unfold workerTask. destruct (localOptima _ _ _ _ _ _); simpl; trivial.
  unfold arrive, initialOptimum. destruct (runSchedule _ _). reflexivity.
Qed.

Lemma workerTask_solo {lib : GoLibrary} (data : InputData)
    (minX maxX : float) (dataNormalized : InputData) (numThreads : Z)
    (hyperParams : Hyperparameters) (schedule : list nat)
    (w best : BestResult) :
  localOptima dataNormalized data minX maxX
    (subworkArrays (createArrayParamPermutations hyperParams)
       (workSizePerThread hyperParams numThreads) (Z.to_nat numThreads) 0)
    (Outpath hyperParams) = Ok [w] ->
  workerTask data minX maxX dataNormalized numThreads hyperParams schedule
  = Ok (Some best) ->
  best = improve (initialOptimum (Outpath hyperParams)) w.
Proof.
  intros L H. rewrite workerTask_unfold, L in H. simpl in H.
  destruct (allDone _) eqn:D; [|discriminate].
  apply solo_update in D. congruence.
Qed.

(** C6 on the two points of the line [y = x] and the Grid of three
    permutations: with one thread the worker finds the error 0.0390625 of
    the third permutation, with two threads the error 0.0625 of the second
    one, whatever the schedules. *)
Theorem partition_changes_the_optimum
    (schedule1 schedule2 : list nat) (best1 best2 : BestResult) :
  workerTask (lib := exampleLibrary) onTheLine 0 1 (Normalize onTheLine 0 1)
    1 threeEpochCounts schedule1 = Ok (Some best1) ->
  workerTask (lib := exampleLibrary) onTheLine 0 1 (Normalize onTheLine 0 1)
    2 threeEpochCounts schedule2 = Ok (Some best2) ->
  MinMax (X onTheLine) = Ok (0, 1) /\
  optimalMSE best1 = 0.0390625 /\ NumEpochs (optimalHyperParams best1) = [3] /\
  optimalMSE best2 = 0.0625 /\ NumEpochs (optimalHyperParams best2) = [2].
Proof.
  intros H1 H2.
  apply workerTask_solo
    with (w := {| optimalHyperParams :=
                    {| Outpath := "out.csv"; Alpha := [0.5];
                       NumEpochs := [3]; Lambda := [];
                       MiniBatchSize := [] |};
                  optimalMSE := 0.0390625;
                  optimalModelParams := {| Mu := 0.25; Beta := 0.625 |} |})
    in H1; [|vm_compute; reflexivity].
  apply workerTask_solo
    with (w := {| optimalHyperParams :=
                    {| Outpath := "out.csv"; Alpha := [0.5];
                       NumEpochs := [2]; Lambda := [];
                       MiniBatchSize := [] |};
                  optimalMSE := 0.0625;
                  optimalModelParams := {| Mu := 0.25; Beta := 0.5 |} |})
    in H2; [|vm_compute; reflexivity].
  subst best1 best2. vm_compute. repeat split.
Qed.

Lemma partition_changes_the_optimum_witness :
  exists best1 best2,
    optimalMSE best1 = 0.0390625 /\ optimalMSE best2 = 0.0625.
Proof.
  pose proof
    (partition_changes_the_optimum (oneAfterAnother 1) (oneAfterAnother 2)
       {| optimalHyperParams :=
            {| Outpath := "out.csv"; Alpha := [0.5]; NumEpochs := [3];
               Lambda := []; MiniBatchSize := [] |};
          optimalMSE := 0.0390625;
          optimalModelParams := {| Mu := 0.25; Beta := 0.625 |} |}
       {| optimalHyperParams :=
            {| Outpath := "out.csv"; Alpha := [0.5]; NumEpochs := [2];
               Lambda := []; MiniBatchSize := [] |};
          optimalMSE := 0.0625;
          optimalModelParams := {| Mu := 0.25; Beta := 0.5 |} |}) as P.
  destruct P as (_ & E1 & _ & E2 & _);
    [vm_compute; reflexivity | vm_compute; reflexivity |].
  eexists. eexists. split; [exact E1 | exact E2].
Defined.

(** ** Examples of the searches *)

(** C5, as stated, fails at its start and at its end: the optimum starts at
    [math.MaxFloat64], which is below +infinity; and on the dataset whose X
    values are all equal every error is NaN, which the optimum the search
    ends with is not below or equal to. *)
Lemma optimum_starts_finite_and_skips_nan :
  (exists best,
     searchSequential (lib := exampleLibrary) onTheLine 0 1
       (Normalize onTheLine 0 1)
       {| Outpath := "out.csv"; Alpha := []; NumEpochs := [];
          Lambda := []; MiniBatchSize := [] |} = Ok best /\
     optimalMSE best = MaxFloat64 /\
     (optimalMSE best <? infinity) = true) /\
  (exists best candidates,
     searchSequential (lib := exampleLibrary) constantX 1 1
       (Normalize constantX 1 1) threeEpochCounts = Ok best /\
     evaluateAll (lib := exampleLibrary) (Normalize constantX 1 1) constantX
       1 1 "out.csv" (createArrayParamPermutations threeEpochCounts)
     = Ok candidates /\
     length candidates = 3%nat /\
     forallb (fun c => is_nan (optimalMSE c)) candidates = true /\
     forallb (fun c => negb (optimalMSE best <=? optimalMSE c)) candidates
     = true).
Proof.
  split.
  - eexists. split; [vm_compute; reflexivity|]. split; reflexivity.
  - eexists. eexists. split; [vm_compute; reflexivity|].
    split; [vm_compute; reflexivity|]. repeat split.
Qed.

Lemma best_so_far_is_least_witness :
  exists candidates,
    evaluateAll (lib := exampleLibrary) (Normalize onTheLine 0 1) onTheLine
      0 1 "out.csv" (createArrayParamPermutations threeEpochCounts)
    = Ok candidates /\
    searchSequential (lib := exampleLibrary) onTheLine 0 1
      (Normalize onTheLine 0 1) threeEpochCounts
    = Ok (optimumAfter "out.csv" candidates) /\
    tracksTheLeast "out.csv" candidates.
Proof.
  refine (proj1 (best_so_far_is_least (lib := exampleLibrary) onTheLine
                   (Normalize onTheLine 0 1) 0 1 threeEpochCounts _ _));
    simpl; lia.
Defined.

(** ** The partition when no chunk is dropped and no update is lost *)

(** Comparing with the shared optimum after the local search, or taking the
    shared optimum into the local search, is the same. *)
Lemma improve_improve (g a c : BestResult) :
  is_nan (optimalMSE a) = false ->
  improve g (improve a c) = improve (improve g a) c.
Proof.
  intros Ha. unfold improve.
  destruct (optimalMSE c <? optimalMSE a) eqn:CA;
    destruct (optimalMSE a <? optimalMSE g) eqn:AG; rewrite ?CA, ?AG;
    trivial.
  - rewrite (ltb_trans _ _ _ CA AG). reflexivity.
  - rewrite (ltb_negative_trans _ _ _ Ha CA AG). reflexivity.
Qed.

Lemma improve_fold (candidates : list BestResult) :
  forall g a,
    is_nan (optimalMSE a) = false ->
    improve g (fold_left improve candidates a)
    = fold_left improve candidates (improve g a).
Proof.
  induction candidates as [|c cs IH]; intros g a Ha; simpl.
  - reflexivity.
  - rewrite IH by apply (fold_improve_not_nan [c] a Ha).
    rewrite improve_improve by exact Ha. reflexivity.
Qed.

Lemma improve_below (g c : BestResult) :
  (MaxFloat64 <? optimalMSE g) = false ->
  (MaxFloat64 <? optimalMSE (improve g c)) = false.
Proof.
  intros Hg. unfold improve.
  destruct (optimalMSE c <? optimalMSE g) eqn:E; trivial.
  destruct (MaxFloat64 <? optimalMSE c) eqn:M; trivial.
  rewrite (ltb_trans _ _ _ M E) in Hg. discriminate.
Qed.

Lemma fold_improve_below (candidates : list BestResult) :
  forall g,
    (MaxFloat64 <? optimalMSE g) = false ->
    (MaxFloat64 <? optimalMSE (fold_left improve candidates g)) = false.
Proof.
  induction candidates as [|c cs IH]; intros g Hg; simpl; trivial.
  apply IH, improve_below, Hg.
Qed.

Lemma merge_of_local_optima (outpath : string)
    (chunks : list (list BestResult)) :
  forall g,
    (MaxFloat64 <? optimalMSE g) = false ->
    fold_left improve (map (optimumAfter outpath) chunks) g
    = fold_left improve (concat chunks) g.
Proof.
  induction chunks as [|cs chunks IH]; intros g Hg; simpl.
  - reflexivity.
  - rewrite fold_left_app.
    change (optimumAfter outpath cs)
      with (fold_left improve cs (initialOptimum outpath)).
    rewrite improve_fold by apply MaxFloat64_not_nan.
    replace (improve g (initialOptimum outpath)) with g
      by (unfold improve; simpl; rewrite Hg; reflexivity).
    apply IH, fold_improve_below, Hg.
Qed.

Section Agreement.
Context {lib : GoLibrary}.
Variables (dataNormalized data : InputData) (minX maxX : float).

Lemma localOptima_concat (outpath : string)
    (chunks : list (list Hyperparameters)) :
  forall candidates,
    evaluateAll dataNormalized data minX maxX outpath (concat chunks)
    = Ok candidates ->
    exists evaluated,
      concat evaluated = candidates /\
      length evaluated = length chunks /\
      localOptima dataNormalized data minX maxX chunks outpath
      = Ok (map (optimumAfter outpath) evaluated).
Proof.
  induction chunks as [|chunk chunks IH]; intros candidates H; simpl in *.
  - exists []. injection H as <-. repeat split.
  - rewrite evaluateAll_app in H.
    destruct (evaluateAll _ _ _ _ _ chunk) as [c1|] eqn:E1;
      [|discriminate].
    destruct (evaluateAll _ _ _ _ _ (concat chunks)) as [c2|] eqn:E2;
      [|discriminate].
    simpl in H.
    destruct (IH c2 eq_refl) as (evaluated & C & L & O).
    exists (c1 :: evaluated). simpl.
    rewrite localOptimum_is_fold, E1, O. simpl.
    repeat split; congruence.
Qed.

End Agreement.

Lemma runSchedule_app (s1 s2 : list nat) (c : config) :
  runSchedule (s1 ++ s2) c = runSchedule s2 (runSchedule s1 c).
Proof.
  revert c. induction s1 as [|i s1 IH]; intros c; simpl; trivial.
  destruct (stepSubWorker i c); apply IH.
Qed.

Lemma runSchedule_absent (schedule : list nat) (ws : list subWorker)
    (s : shared) :
  Forall (fun i => length ws <= i)%nat schedule ->
  runSchedule schedule (ws, s) = (ws, s).
Proof.
  induction 1 as [|i schedule Hi _ IH]; simpl; trivial.
  apply nth_error_None in Hi. rewrite Hi. exact IH.
Qed.

Lemma oneAfterAnother_enough (bests : list BestResult) (outpath : string)
    (n : nat) :
  (length bests <= n)%nat ->
  runSchedule (oneAfterAnother n) (arrive bests outpath)
  = (finished bests,
     {| globalOptimal := fold_left improve bests (initialOptimum outpath);
        globalParamLock := None |}).
Proof.
  intros H. unfold oneAfterAnother.
  replace n with (length bests + (n - length bests))%nat by lia.
  rewrite seq_app, flat_map_app, runSchedule_app.
  fold (oneAfterAnother (length bests)).
  rewrite oneAfterAnother_merge. apply runSchedule_absent.
  apply Forall_forall. intros i Hi.
  apply in_flat_map in Hi. destruct Hi as (k & Hk & Hi).
  apply in_seq in Hk. unfold finished. rewrite length_map.
  simpl in Hi. intuition lia.
Qed.

Lemma allDone_finished (bests : list BestResult) :
  allDone (finished bests) = true.
Proof. induction bests; simpl; trivial. Qed.

Lemma subworkArrays_count (workArray : list Hyperparameters) (workSize : Z)
    (count : nat) :
  forall i, (length (subworkArrays workArray workSize count i) <= count)%nat.
Proof.
  induction count as [|count IH]; intros i; simpl; [lia|].
  destruct (len workArray <? (i + 1) * workSize)%Z; simpl; [lia|].
  specialize (IH (i + 1)%Z). lia.
Qed.

(** X19. When the chunks are the whole work and the sub-workers come one
    after the other, the worker finds the optimum of the sequential
    search. *)
Lemma worker_agrees_when_chunks_cover {lib : GoLibrary}
    (data dataNormalized : InputData) (minX maxX : float) (numThreads : Z)
    (hyperParams : Hyperparameters) (best : BestResult) :
  concat (subworkArrays (createArrayParamPermutations hyperParams)
            (workSizePerThread hyperParams numThreads)
            (Z.to_nat numThreads) 0)
  = createArrayParamPermutations hyperParams ->
  searchSequential data minX maxX dataNormalized hyperParams = Ok best ->
  workerTask data minX maxX dataNormalized numThreads hyperParams
    (oneAfterAnother (Z.to_nat numThreads)) = Ok (Some best).
Proof.
  intros Hcover Hseq.
  rewrite searchSequential_fold in Hseq.
  destruct (evaluateAll _ _ _ _ _ _) as [candidates|] eqn:E; [|discriminate].
  simpl in Hseq.
  rewrite <- Hcover in E.
  destruct (localOptima_concat dataNormalized data minX maxX
              (Outpath hyperParams) _ candidates E)
    as (evaluated & C & L & O).
  rewrite workerTask_unfold, O. cbn [bind].
  rewrite oneAfterAnother_enough.
  - cbn [fst snd globalOptimal]. rewrite allDone_finished.
    rewrite merge_of_local_optima by reflexivity.
    rewrite C. unfold optimumAfter in Hseq. congruence.
  - rewrite length_map, L. apply subworkArrays_count.
Qed.

(** * Further properties of the code *)

(** ** More on the regression engine *)

Lemma ltb_nan_l (a b : float) : is_nan a = true -> (a <? b) = false.
Proof.
  intros H. destruct (a <? b) eqn:E; trivial.
  apply ltb_not_nan in E. destruct E as [E _]. congruence.
Qed.

Lemma ltb_nan_r (a b : float) : is_nan b = true -> (a <? b) = false.
Proof.
  intros H. destruct (a <? b) eqn:E; trivial.
  apply ltb_not_nan in E. destruct E as [_ E]. congruence.
Qed.

Lemma sub_zero_r (x : float) : x - 0 = x.
Proof.
  apply Prim2SF_inj. rewrite sub_spec.
  change (Prim2SF 0) with (S754_zero false).
  destruct (Prim2SF x) as [s|s| |s m e]; try reflexivity.
  destruct s; reflexivity.
Qed.

Lemma sub_diag_SF (x : spec_float) :
  SF64sub x x = S754_zero false \/ SF64sub x x = S754_nan.
Proof.
  destruct x as [s|s| |s m e]; simpl.
  - left. destruct s; reflexivity.
  - right. destruct s; reflexivity.
  - right. reflexivity.
  - left. unfold SF64sub, SFsub. rewrite Z.sub_diag. reflexivity.
Qed.

Lemma div_by_sub_diag (x m : float) : is_finite (x / (m - m)) = false.
Proof.
  rewrite is_finite_SF, div_spec, sub_spec.
  destruct (sub_diag_SF (Prim2SF m)) as [E|E]; rewrite E;
    destruct (Prim2SF x) as [s|s| |s mx ex]; reflexivity.
Qed.

Lemma MinMax_unfold (first : float) (rest : list float) :
  exists maxX minX,
    fold_left
      (fun '(max, min) value =>
         let max := if max <? value then value else max in
         let min := if value <? min then value else min in
         (max, min))
      (first :: rest) (first, first) = (maxX, minX) /\
    MinMax (first :: rest) = Ok (minX, maxX).
Proof.
  unfold MinMax.
  change (index (first :: rest) 0) with (Ok first). cbn [bind].
  destruct (fold_left _ _ _) as [maxX minX]. eauto.
Qed.

Lemma scan_bounds (arr : list float) :
  forall (seen : list float) (max min maxX minX : float),
    is_nan max = false -> is_nan min = false ->
    In max seen -> In min seen ->
    (forall x, In x seen -> is_nan x = false ->
               (min <=? x) = true /\ (x <=? max) = true) ->
    fold_left
      (fun '(max, min) value =>
         let max := if max <? value then value else max in
         let min := if value <? min then value else min in
         (max, min))
      arr (max, min) = (maxX, minX) ->
    is_nan maxX = false /\ is_nan minX = false /\
    In maxX (seen ++ arr) /\ In minX (seen ++ arr) /\
    (forall x, In x (seen ++ arr) -> is_nan x = false ->
               (minX <=? x) = true /\ (x <=? maxX) = true).
Proof.
  induction arr as [|v arr IH];
    intros seen max min maxX minX Hmax Hmin Imax Imin B E.
  - simpl in E. rewrite app_nil_r.
    assert (maxX = max /\ minX = min) as [-> ->]
      by (split; congruence).
    auto.
  - cbn [fold_left] in E.
    replace (seen ++ v :: arr) with ((seen ++ [v]) ++ arr)
      by (rewrite <- app_assoc; reflexivity).
    eapply IH; [| | | | |exact E].
    + destruct (max <? v) eqn:L; trivial. apply ltb_not_nan in L. tauto.
    + destruct (v <? min) eqn:L; trivial. apply ltb_not_nan in L. tauto.
    + apply in_or_app. destruct (max <? v); [right; left|left]; trivial.
    + apply in_or_app. destruct (v <? min); [right; left|left]; trivial.
    + intros x Hx Nx. apply in_app_or in Hx. destruct Hx as [Hx|[<-|[]]].
      * destruct (B x Hx Nx) as [B1 B2]. split.
        -- destruct (v <? min) eqn:L; trivial.
           eapply ltb_leb_trans; eassumption.
        -- destruct (max <? v) eqn:L; trivial.
           eapply leb_trans; [exact B2|]. apply ltb_leb, L.
      * split.
        -- destruct (v <? min) eqn:L.
           ++ apply leb_refl, Nx.
           ++ apply ltb_total; assumption.
        -- destruct (max <? v) eqn:L.
           ++ apply leb_refl, Nx.
           ++ apply ltb_total; assumption.
Qed.

(** X1. On a slice whose first value is not NaN, the scan returns two values
    of the slice, neither of them NaN, with every value of the slice that is
    not NaN between them. *)
Theorem MinMax_bounds (first : float) (rest : list float) :
  is_nan first = false ->
  exists minX maxX,
    MinMax (first :: rest) = Ok (minX, maxX) /\
    In minX (first :: rest) /\ In maxX (first :: rest) /\
    is_nan minX = false /\ is_nan maxX = false /\
    (forall x, In x (first :: rest) -> is_nan x = false ->
               (minX <=? x) = true /\ (x <=? maxX) = true).
Proof.
  intros N.
  destruct (MinMax_unfold first rest) as (maxX & minX & E & M).
  exists minX, maxX. split; [exact M|].
  destruct (scan_bounds (first :: rest) [first] first first maxX minX)
    as (N1 & N2 & I1 & I2 & B); trivial; try (left; reflexivity).
  - intros x [<-|[]] Nx. split; apply leb_refl, Nx.
  - assert (S : forall x, In x ([first] ++ first :: rest) ->
                          In x (first :: rest)).
    { intros x [<-|Hx]; [left; reflexivity | exact Hx]. }
    repeat split; auto; apply B; trivial; right; assumption.
Qed.

Lemma MinMax_bounds_witness :
  exists minX maxX,
    MinMax [3; nan; 1; 2] = Ok (minX, maxX) /\
    In minX [3; nan; 1; 2] /\ In maxX [3; nan; 1; 2] /\
    is_nan minX = false /\ is_nan maxX = false /\
    (forall x, In x [3; nan; 1; 2] -> is_nan x = false ->
               (minX <=? x) = true /\ (x <=? maxX) = true).
Proof. apply (MinMax_bounds 3 [nan; 1; 2]). reflexivity. Defined.

(** X2. When the first value of the slice is NaN, the scan returns it as
    minimum and as maximum, whatever follows. *)
Theorem MinMax_first_nan (first : float) (rest : list float) :
  is_nan first = true ->
  MinMax (first :: rest) = Ok (first, first).
Proof.
  intros N.
  destruct (MinMax_unfold first rest) as (maxX & minX & E & M).
  rewrite M.
  assert (K : forall l,
             fold_left
               (fun '(max, min) value =>
                  let max := if max <? value then value else max in
                  let min := if value <? min then value else min in
                  (max, min))
               l (first, first) = (first, first)).
  { induction l as [|v l IH]; [reflexivity|].
    cbn [fold_left]. rewrite (ltb_nan_l first v N), (ltb_nan_r v first N).
    exact IH. }
  rewrite K in E. congruence.
Qed.

Lemma MinMax_first_nan_witness : MinMax [nan; 1; 2] = Ok (nan, nan).
Proof. apply (MinMax_first_nan nan [1; 2]). reflexivity. Defined.

(** X6. With a minimum of 0 the slope is divided by the maximum and nothing
    is taken off it; the intercept is returned as it came. *)
Theorem UnNormalize_from_zero (parameters : Parameters) (data : InputData)
    (maxX : float) :
  UnNormalize parameters data 0 maxX
  = {| Mu := Mu parameters; Beta := Beta parameters / maxX |}.
Proof. unfold UnNormalize. rewrite !sub_zero_r. reflexivity. Qed.

(** X7. When the minimum and the maximum handed to the normalization are
    the same value, no normalized X value is a finite number: each is an
    infinity or NaN. The Y values and the number of X values are kept. *)
Theorem Normalize_degenerate (rawData : InputData) (m : float) :
  Forall (fun x => is_finite x = false) (X (Normalize rawData m m)) /\
  length (X (Normalize rawData m m)) = length (X rawData) /\
  Y (Normalize rawData m m) = Y rawData.
Proof.
  split; [|apply Normalize_lengths].
  unfold Normalize. simpl. apply Forall_forall. intros x Hx.
  apply in_map_iff in Hx. destruct Hx as (x0 & <- & _).
  apply div_by_sub_diag.
Qed.

(** ** When the engine panics *)

Lemma index_Panic {A : Type} (s : list A) (i : nat) :
  (length s <= i)%nat -> index s i = Panic.
Proof.
  intros H. unfold index.
  apply nth_error_None in H. rewrite H. reflexivity.
Qed.

Lemma forLoop_Panic {A : Type} (body : nat -> A -> result A) (i : nat) :
  (forall a, body i a = Panic) ->
  forall n first acc,
    (first <= i < first + n)%nat -> forLoop n first body acc = Panic.
Proof.
  intros H. induction n as [|n IH]; intros first acc Hi; [lia|].
  simpl. destruct (Nat.eq_dec first i) as [->|Hne].
  - rewrite H. reflexivity.
  - destruct (body first acc); simpl; trivial. apply IH. lia.
Qed.

Lemma result_cases {A : Type} (r : result A) :
  (exists a, r = Ok a) \/ r = Panic.
Proof. destruct r; eauto. Qed.

Section Panics.
Context {lib : GoLibrary}.

Lemma CalcMSE_short (predicted actual : list float) :
  (length actual < length predicted)%nat ->
  CalcMSE predicted actual = Panic.
Proof.
  intros H. unfold CalcMSE.
  rewrite (forLoop_Panic _ (length actual)); trivial; [|lia].
  intros a.
  destruct (index_Ok predicted (length actual) H) as [p ->]. simpl.
  rewrite index_Panic by lia. reflexivity.
Qed.

(** X3. The mean squared error panics exactly when there are fewer actual
    values than predicted ones; on no prediction at all it is 0/0, NaN. *)
Theorem CalcMSE_panics_iff (predicted actual : list float) :
  (CalcMSE predicted actual = Panic
   <-> (length actual < length predicted)%nat) /\
  CalcMSE [] actual = Ok nan.
Proof.
  split; [|reflexivity]. split.
  - intros E.
    destruct (Nat.lt_ge_cases (length actual) (length predicted)) as [H|H];
      trivial.
    destruct (CalcMSE_Ok predicted actual H) as [mse M]. congruence.
  - apply CalcMSE_short.
Qed.

Lemma calcGradientMu_short (predicted actual : list float) :
  (length actual < length predicted)%nat ->
  calcGradientMu predicted actual = Panic.
Proof.
  intros H. unfold calcGradientMu.
  rewrite (forLoop_Panic _ (length actual)); trivial; [|lia].
  intros a. rewrite index_Panic by lia. reflexivity.
Qed.

Lemma UpdateParams_short (parameters : Parameters) (data : InputData)
    (alpha : float) :
  (length (Y data) < length (X data))%nat ->
  UpdateParams parameters data alpha = Panic.
Proof.
  intros H. unfold UpdateParams.
  rewrite calcGradientMu_short; trivial.
  rewrite Forecast_length. exact H.
Qed.

(** X4. One gradient-descent step panics exactly when the dataset has fewer
    Y values than X values. *)
Theorem UpdateParams_panics_iff (parameters : Parameters) (data : InputData)
    (alpha : float) :
  UpdateParams parameters data alpha = Panic
  <-> (length (Y data) < length (X data))%nat.
Proof.
  split.
  - intros E.
    destruct (Nat.lt_ge_cases (length (Y data)) (length (X data))) as [H|H];
      trivial.
    destruct (UpdateParams_Ok parameters data alpha H) as [p P]. congruence.
  - apply UpdateParams_short.
Qed.

Lemma runGradientDescent_short (dataNormalized : InputData)
    (alpha numEpochs : float) :
  (0 < float64_to_int numEpochs)%Z ->
  (length (Y dataNormalized) < length (X dataNormalized))%nat ->
  runGradientDescent dataNormalized alpha numEpochs = Panic.
Proof.
  intros Hn H. unfold runGradientDescent.
  destruct (Z.to_nat (float64_to_int numEpochs)) as [|n] eqn:E; [lia|].
  simpl. rewrite UpdateParams_short; trivial.
Qed.

(** X5. Gradient descent panics exactly when it has an epoch to run on a
    dataset with fewer Y values than X values: without an epoch (a count
    that converts to 0 or less) it returns (0, 0) on any dataset. *)
Theorem runGradientDescent_panics_iff (dataNormalized : InputData)
    (alpha numEpochs : float) :
  (runGradientDescent dataNormalized alpha numEpochs = Panic
   <-> (0 < float64_to_int numEpochs)%Z /\
       (length (Y dataNormalized) < length (X dataNormalized))%nat) /\
  ((float64_to_int numEpochs <= 0)%Z ->
   runGradientDescent dataNormalized alpha numEpochs
   = Ok {| Mu := 0; Beta := 0 |}).
Proof.
  assert (Z0 : (float64_to_int numEpochs <= 0)%Z ->
               runGradientDescent dataNormalized alpha numEpochs
               = Ok {| Mu := 0; Beta := 0 |}).
  { intros H. unfold runGradientDescent.
    replace (Z.to_nat (float64_to_int numEpochs)) with 0%nat by lia.
    reflexivity. }
  split; [|exact Z0]. split.
  - intros E.
    destruct (Z.lt_ge_cases 0 (float64_to_int numEpochs)) as [Hn|Hn].
    + split; trivial.
      destruct (Nat.lt_ge_cases (length (Y dataNormalized))
                  (length (X dataNormalized))) as [H|H]; trivial.
      destruct (runGradientDescent_Ok dataNormalized alpha numEpochs H)
        as [p P].
      congruence.
    + rewrite Z0 in E by exact Hn. discriminate.
  - intros [Hn H]. apply runGradientDescent_short; trivial.
Qed.

End Panics.

(** ** More on the searches *)

Lemma SFltb_SFleb_lt (a b c : spec_float) :
  SFltb a b = true -> SFleb b c = true -> SFltb a c = true.
Proof.
  destruct a as [s1|s1| |s1 m1 e1], b as [s2|s2| |s2 m2 e2],
    c as [s3|s3| |s3 m3 e3]; sf_order.
Qed.

Lemma ltb_leb_lt (a b c : float) :
  (a <? b) = true -> (b <=? c) = true -> (a <? c) = true.
Proof. rewrite !ltb_spec, leb_spec. apply SFltb_SFleb_lt. Qed.

Lemma no_permutation_iff (hyperParams : Hyperparameters) :
  createArrayParamPermutations hyperParams = []
  <-> Alpha hyperParams = [] \/ NumEpochs hyperParams = [].
Proof.
  rewrite <- length_zero_iff_nil, createArrayParamPermutations_length.
  rewrite <- !length_zero_iff_nil. lia.
Qed.

Lemma fold_improve_choice (candidates : list BestResult) :
  forall best,
    fold_left improve candidates best = best \/
    In (fold_left improve candidates best) candidates.
Proof.
  induction candidates as [|c cs IH]; intros best; simpl.
  - left. reflexivity.
  - destruct (IH (improve best c)) as [E|Hin]; [|right; right; exact Hin].
    rewrite E. unfold improve.
    destruct (optimalMSE c <? optimalMSE best); [right|]; left; reflexivity.
Qed.

Section MoreSearch.
Context {lib : GoLibrary}.
Variables (dataNormalized data : InputData) (minX maxX : float).

Lemma evaluateAll_In (outpath : string) (workArray : list Hyperparameters) :
  forall candidates c,
    evaluateAll dataNormalized data minX maxX outpath workArray
    = Ok candidates ->
    In c candidates ->
    exists p,
      In p workArray /\
      evaluate dataNormalized data minX maxX outpath p = Ok c.
Proof.
  induction workArray as [|p workArray IH]; intros candidates c E Hin;
    simpl in E.
  - assert (candidates = []) by congruence. subst. contradiction.
  - destruct (evaluate _ _ _ _ _ p) as [c0|] eqn:E0; [|discriminate].
    destruct (evaluateAll _ _ _ _ _ workArray) as [cs|] eqn:E1;
      [|discriminate].
    simpl in E. assert (candidates = c0 :: cs) by congruence. subst.
    destruct Hin as [<-|Hin].
    + exists p. split; [left; reflexivity | exact E0].
    + destruct (IH cs c eq_refl Hin) as (q & Hq & Eq).
      exists q. split; [right; exact Hq | exact Eq].
Qed.

Lemma evaluate_point (outpath : string) (p : Hyperparameters)
    (c : BestResult) :
  evaluate dataNormalized data minX maxX outpath p = Ok c ->
  exists alpha numEpochs parameters,
    index (Alpha p) 0 = Ok alpha /\
    index (NumEpochs p) 0 = Ok numEpochs /\
    runGradientDescent dataNormalized alpha numEpochs = Ok parameters /\
    optimalHyperParams c
    = {| Outpath := outpath; Alpha := [alpha]; NumEpochs := [numEpochs];
         Lambda := []; MiniBatchSize := [] |} /\
    optimalModelParams c = UnNormalize parameters data minX maxX /\
    CalcMSE (Forecast (Mu (optimalModelParams c))
               (Beta (optimalModelParams c)) (X data)) (Y data)
    = Ok (optimalMSE c).
Proof.
  unfold evaluate. intros E.
  destruct (index (Alpha p) 0) as [alpha|] eqn:Ia; [|discriminate].
  destruct (index (NumEpochs p) 0) as [numEpochs|] eqn:Ie; [|discriminate].
  cbn [bind] in E.
  destruct (runGradientDescent dataNormalized alpha numEpochs)
    as [parameters|] eqn:G; [|discriminate].
  cbn [bind] in E. cbv zeta in E.
  destruct (CalcMSE _ (Y data)) as [mse|] eqn:M; [|discriminate].
  cbn [bind] in E. exists alpha, numEpochs, parameters.
  apply (f_equal (fun r => match r with Ok x => x | Panic => c end)) in E.
  cbv beta iota in E. subst c.
  cbn [optimalHyperParams optimalMSE optimalModelParams Mu Beta].
  repeat split; trivial.
Qed.

(** X11. What the sequential search of a Grid returns is either the optimum
    it started from, or what it computed at one permutation of the Grid: the
    learning rate and the epoch count of the Grid's lists that it reports,
    the parameters that gradient descent fitted with these two and that
    were denormalized, and the error of these parameters on the raw data;
    the two unused axes are reported empty either way. *)
Theorem optimum_is_a_permutation (hyperParams : Hyperparameters)
    (best : BestResult) :
  searchSequential data minX maxX dataNormalized hyperParams = Ok best ->
  Outpath (optimalHyperParams best) = Outpath hyperParams /\
  Lambda (optimalHyperParams best) = [] /\
  MiniBatchSize (optimalHyperParams best) = [] /\
  (best = initialOptimum (Outpath hyperParams) \/
   exists alpha numEpochs parameters,
     In alpha (Alpha hyperParams) /\
     In numEpochs (NumEpochs hyperParams) /\
     Alpha (optimalHyperParams best) = [alpha] /\
     NumEpochs (optimalHyperParams best) = [numEpochs] /\
     runGradientDescent dataNormalized alpha numEpochs = Ok parameters /\
     optimalModelParams best = UnNormalize parameters data minX maxX /\
     CalcMSE (Forecast (Mu (optimalModelParams best))
                (Beta (optimalModelParams best)) (X data)) (Y data)
     = Ok (optimalMSE best)).
Proof.
  intros E. rewrite searchSequential_fold in E.
  destruct (evaluateAll _ _ _ _ _ _) as [candidates|] eqn:EA; [|discriminate].
  simpl in E. assert (B : best = optimumAfter (Outpath hyperParams) candidates)
    by congruence.
  unfold optimumAfter in B. subst best.
  destruct (fold_improve_choice candidates
              (initialOptimum (Outpath hyperParams))) as [I|Hin].
  - rewrite I. simpl. repeat split. left. reflexivity.
  - set (best := fold_left improve candidates
                   (initialOptimum (Outpath hyperParams))) in *.
    destruct (evaluateAll_In _ _ _ _ EA Hin) as (p & Hp & Ep).
    destruct (evaluate_point _ _ _ Ep)
      as (alpha & numEpochs & parameters & Ia & Ie & G & H & P & M).
    unfold createArrayParamPermutations in Hp.
    apply in_flat_map in Hp. destruct Hp as (a & Ha & Hp).
    apply in_map_iff in Hp. destruct Hp as (e & <- & He).
    simpl in Ia, Ie.
    assert (a = alpha) by (unfold index in Ia; simpl in Ia; congruence).
    assert (e = numEpochs) by (unfold index in Ie; simpl in Ie; congruence).
    subst a e. rewrite H. simpl. repeat split.
    right. exists alpha, numEpochs, parameters.
    repeat split; trivial.
Qed.

Lemma searchSequential_no_permutation (hyperParams : Hyperparameters) :
  createArrayParamPermutations hyperParams = [] ->
  searchSequential data minX maxX dataNormalized hyperParams
  = Ok (initialOptimum (Outpath hyperParams)).
Proof. intros H. rewrite searchSequential_fold, H. reflexivity. Qed.

(** X13. For a Grid without a learning rate, or without an epoch count, the
    sequential search evaluates nothing and returns the optimum it started
    from, on any dataset. *)
Theorem search_of_empty_grid (hyperParams : Hyperparameters) :
  Alpha hyperParams = [] \/ NumEpochs hyperParams = [] ->
  searchSequential data minX maxX dataNormalized hyperParams
  = Ok (initialOptimum (Outpath hyperParams)).
Proof.
  intros H. apply no_permutation_iff in H.
  rewrite searchSequential_fold, H. reflexivity.
Qed.

End MoreSearch.

(** X12. In either search loop a candidate replaces the optimum only when
    its error is strictly below the error of every candidate before it that
    is a number, so that of two candidates with the same error the earlier
    one is kept. *)
Theorem earlier_candidate_wins_ties (outpath : string)
    (seen : list BestResult) (c earlier : BestResult) :
  In earlier seen ->
  is_nan (optimalMSE earlier) = false ->
  (optimalMSE c <? optimalMSE earlier) = false ->
  optimumAfter outpath (seen ++ [c]) = optimumAfter outpath seen.
Proof.
  intros Hin Ne Hc. unfold optimumAfter. rewrite fold_left_app.
  cbn [fold_left].
  set (before := fold_left improve seen (initialOptimum outpath)).
  unfold improve.
  destruct (optimalMSE c <? optimalMSE before) eqn:L; trivial.
  assert (T : (optimalMSE c <? optimalMSE earlier) = true).
  { eapply ltb_leb_lt; [exact L|].
    apply fold_improve_least; trivial. }
  congruence.
Qed.

Lemma earlier_candidate_wins_ties_witness :
  optimumAfter "out.csv" ([found 2; found 1] ++ [found 1])
  = optimumAfter "out.csv" [found 2; found 1].
Proof.
  apply (earlier_candidate_wins_ties "out.csv" [found 2; found 1]
           (found 1) (found 1)).
  - right. left. reflexivity.
  - reflexivity.
  - reflexivity.
Defined.

Section SequentialPanics.
Context {lib : GoLibrary}.

Lemma evaluate_short (dataNormalized data : InputData) (minX maxX : float)
    (outpath : string) (p : Hyperparameters) :
  (length (Y data) < length (X data))%nat ->
  evaluate dataNormalized data minX maxX outpath p = Panic.
Proof.
  intros H. unfold evaluate.
  destruct (index (Alpha p) 0); trivial.
  destruct (index (NumEpochs p) 0); trivial. cbn [bind].
  destruct (runGradientDescent _ _ _); trivial. cbn [bind]. cbv zeta.
  rewrite CalcMSE_short; trivial.
  rewrite Forecast_length. exact H.
Qed.

Lemma searchSequential_short (dataNormalized data : InputData)
    (minX maxX : float) (hyperParams : Hyperparameters) :
  (length (Y data) < length (X data))%nat ->
  Alpha hyperParams <> [] -> NumEpochs hyperParams <> [] ->
  searchSequential data minX maxX dataNormalized hyperParams = Panic.
Proof.
  intros H Ha He. rewrite searchSequential_fold.
  destruct (createArrayParamPermutations hyperParams) as [|p ps] eqn:E.
  - apply no_permutation_iff in E. tauto.
  - simpl. rewrite evaluate_short; trivial.
Qed.

End SequentialPanics.

Section Protocol.
Local Open Scope nat_scope.

Lemma nth_error_moveTo (ws : list subWorker) (i j : nat) (p : programPoint) :
  nth_error (moveTo ws i p) j
  = if Nat.eqb i j
    then option_map
           (fun w => {| localOptimal := localOptimal w; point := p |})
           (nth_error ws j)
    else nth_error ws j.
Proof.
  revert i j. induction ws as [|w ws IH]; intros i j.
  - destruct i, j; simpl; trivial; destruct (Nat.eqb _ _); reflexivity.
  - destruct i as [|i], j as [|j]; simpl; trivial.
Qed.

Lemma stepSubWorker_cases (i : nat) (ws : list subWorker) (s : shared)
    (c' : config) :
  stepSubWorker i (ws, s) = Some c' ->
  exists w p,
    nth_error ws i = Some w /\
    fst c' = moveTo ws i p /\
    ((point w = AtCompare /\ (p = AtLock \/ p = AtDone) /\ snd c' = s) \/
     (point w = AtLock /\ p = AtAssign /\ globalParamLock s = None /\
      snd c' = {| globalOptimal := globalOptimal s;
                  globalParamLock := Some i |}) \/
     (point w = AtAssign /\ p = AtUnlock /\
      snd c' = {| globalOptimal := localOptimal w;
                  globalParamLock := globalParamLock s |}) \/
     (point w = AtUnlock /\ p = AtDone /\
      snd c' = {| globalOptimal := globalOptimal s;
                  globalParamLock := None |})).
Proof.
  unfold stepSubWorker. destruct (nth_error ws i) as [w|]; [|discriminate].
  intros E. exists w.
  destruct (point w) eqn:P.
  - destruct (optimalMSE (localOptimal w) <? optimalMSE (globalOptimal s))%float;
      injection E as <-; eexists; (split; [reflexivity|]);
      (split; [reflexivity|]); left; auto.
  - destruct (globalParamLock s) eqn:L; [discriminate|].
    injection E as <-. eexists. split; [reflexivity|].
    split; [reflexivity|]. right. left. auto.
  - injection E as <-. eexists. split; [reflexivity|].
    split; [reflexivity|]. right. right. left. auto.
  - injection E as <-. eexists. split; [reflexivity|].
    split; [reflexivity|]. right. right. right. auto.
  - discriminate.
Qed.

Lemma lockDiscipline_step (i : nat) (c c' : config) :
  lockDiscipline c -> stepSubWorker i c = Some c' -> lockDiscipline c'.
Proof.
  destruct c as [ws s]. intros [In1 In2] E.
  destruct (stepSubWorker_cases i ws s c' E) as (w & p & Hw & Hws & Cases).
  unfold lockDiscipline, inCriticalSection in *. simpl in In1, In2.
  rewrite Hws.
  assert (Other : forall j, j <> i ->
                    nth_error (moveTo ws i p) j = nth_error ws j).
  { intros j Hj. rewrite nth_error_moveTo.
    destruct (Nat.eqb_spec i j); [lia | reflexivity]. }
  assert (Self : nth_error (moveTo ws i p) i
                 = Some {| localOptimal := localOptimal w; point := p |}).
  { rewrite nth_error_moveTo, Nat.eqb_refl, Hw. reflexivity. }
  destruct Cases as [(P & Hp & ->)|[(P & -> & L & ->)|[(P & -> & ->)
                    |(P & -> & ->)]]]; simpl.
  - split.
    + intros j wj Hj Cj. destruct (Nat.eq_dec j i) as [->|Hne].
      * rewrite Self in Hj. injection Hj as <-. simpl in Cj.
        destruct Hp as [-> | ->]; destruct Cj; discriminate.
      * rewrite Other in Hj by exact Hne. eapply In1; eassumption.
    + intros j Hj. destruct (In2 j Hj) as (wj & Hwj & Cj).
      destruct (Nat.eq_dec j i) as [->|Hne].
      * rewrite Hw in Hwj. injection Hwj as <-.
        destruct Cj; congruence.
      * exists wj. rewrite Other by exact Hne. auto.
  - split.
    + intros j wj Hj Cj. destruct (Nat.eq_dec j i) as [->|Hne]; trivial.
      rewrite Other in Hj by exact Hne.
      rewrite (In1 j wj Hj Cj) in L. discriminate.
    + intros j Hj. injection Hj as <-. eexists. split; [exact Self|].
      left. reflexivity.
  - pose proof (In1 i w Hw (or_introl P)) as Held. split.
    + intros j wj Hj Cj. destruct (Nat.eq_dec j i) as [->|Hne]; trivial.
      rewrite Other in Hj by exact Hne. eapply In1; eassumption.
    + intros j Hj. rewrite Held in Hj. injection Hj as <-.
      eexists. split; [exact Self|]. right. reflexivity.
  - pose proof (In1 i w Hw (or_intror P)) as Held. split.
    + intros j wj Hj Cj. destruct (Nat.eq_dec j i) as [->|Hne].
      * rewrite Self in Hj. injection Hj as <-. simpl in Cj.
        destruct Cj; discriminate.
      * rewrite Other in Hj by exact Hne.
        rewrite (In1 j wj Hj Cj) in Held. congruence.
    + intros j Hj. discriminate.
Qed.

Lemma lockDiscipline_arrive (bests : list BestResult) (outpath : string) :
  lockDiscipline (arrive bests outpath).
Proof.
  unfold lockDiscipline, arrive, arriving, inCriticalSection. simpl. split.
  - intros i w Hw Cw. rewrite nth_error_map in Hw.
    destruct (nth_error bests i); simpl in Hw; [|discriminate].
    injection Hw as <-. simpl in Cw. destruct Cw; discriminate.
  - intros i Hi. discriminate.
Qed.

Lemma lockDiscipline_run (schedule : list nat) :
  forall c, lockDiscipline c -> lockDiscipline (runSchedule schedule c).
Proof.
  induction schedule as [|i schedule IH]; intros c H; simpl; trivial.
  destruct (stepSubWorker i c) as [c'|] eqn:E; apply IH; trivial.
  eapply lockDiscipline_step; eassumption.
Qed.

(** X15. Whatever the schedule, two sub-workers of a Grid are never both
    between [Lock()] and [Unlock()], and the one that is there holds the
    mutex. *)
Theorem mutual_exclusion (bests : list BestResult) (outpath : string)
    (schedule : list nat) (i j : nat) (wi wj : subWorker) :
  let c := runSchedule schedule (arrive bests outpath) in
  nth_error (fst c) i = Some wi -> inCriticalSection wi ->
  nth_error (fst c) j = Some wj -> inCriticalSection wj ->
  i = j /\ globalParamLock (snd c) = Some i.
Proof.
  intros c Hi Ci Hj Cj.
  destruct (lockDiscipline_run schedule (arrive bests outpath)
              (lockDiscipline_arrive bests outpath)) as [In1 _].
  fold c in In1.
  pose proof (In1 i wi Hi Ci) as Li. pose proof (In1 j wj Hj Cj) as Lj.
  split; [congruence | exact Li].
Qed.

(** X16. Whatever the schedule has been, as long as a sub-worker of the
    Grid is not done one of them can take a step: the update of the shared
    optimum cannot deadlock. *)
Theorem no_deadlock (bests : list BestResult) (outpath : string)
    (schedule : list nat) :
  let c := runSchedule schedule (arrive bests outpath) in
  allDone (fst c) = false ->
  exists i c', stepSubWorker i c = Some c'.
Proof.
  intros c Hnot.
  destruct (lockDiscipline_run schedule (arrive bests outpath)
              (lockDiscipline_arrive bests outpath)) as [In1 In2].
  fold c in In1, In2. destruct c as [ws s]. simpl in *.
  destruct (globalParamLock s) as [h|] eqn:L.
  - destruct (In2 h eq_refl) as (w & Hw & Cw).
    exists h. unfold stepSubWorker. rewrite Hw.
    destruct Cw as [P|P]; rewrite P; eauto.
  - unfold allDone in Hnot.
    assert (Ex : exists w, In w ws /\
                   match point w with AtDone => false | _ => true end = true).
    { clear -Hnot. induction ws as [|w ws IH]; simpl in Hnot;
        [discriminate|].
      destruct (point w) eqn:P;
        try (exists w; split; [left; reflexivity | rewrite P; reflexivity]).
      simpl in Hnot. destruct (IH Hnot) as (w' & Hin & Hp).
      exists w'. split; [right; exact Hin | exact Hp]. }
    destruct Ex as (w & Hin & Hp).
    apply In_nth_error in Hin. destruct Hin as [i Hi].
    exists i. unfold stepSubWorker. rewrite Hi.
    destruct (point w) eqn:P; try discriminate; rewrite ?L; eauto.
    destruct (optimalMSE (localOptimal w) <? optimalMSE (globalOptimal s))%float;
      eauto.
Qed.

End Protocol.

(** X17. When the sub-workers of a Grid update the shared optimum one after
    the other, all of them finish, the mutex is free at the end, and the
    shared optimum is the fold of their local optima, at most the error of
    every local optimum that is a number. *)
Theorem one_after_another_keeps_the_least (bests : list BestResult)
    (outpath : string) (n : nat) :
  (length bests <= n)%nat ->
  let final := runSchedule (oneAfterAnother n) (arrive bests outpath) in
  allDone (fst final) = true /\
  globalParamLock (snd final) = None /\
  globalOptimal (snd final)
  = fold_left improve bests (initialOptimum outpath) /\
  (forall best, In best bests -> is_nan (optimalMSE best) = false ->
     (optimalMSE (globalOptimal (snd final)) <=? optimalMSE best) = true).
Proof.
  intros H final. unfold final.
  rewrite (oneAfterAnother_enough bests outpath n H). simpl.
  split; [apply allDone_finished|]. repeat split.
  intros best Hin Hn. apply fold_improve_least; trivial.
Qed.

Lemma one_after_another_keeps_the_least_witness :
  let final :=
    runSchedule (oneAfterAnother 2) (arrive [found 5; found 1] "out.csv") in
  allDone (fst final) = true /\
  globalParamLock (snd final) = None /\
  globalOptimal (snd final)
  = fold_left improve [found 5; found 1] (initialOptimum "out.csv") /\
  (forall best, In best [found 5; found 1] ->
     is_nan (optimalMSE best) = false ->
     (optimalMSE (globalOptimal (snd final)) <=? optimalMSE best) = true).
Proof.
  apply (one_after_another_keeps_the_least [found 5; found 1] "out.csv" 2).
  simpl. lia.
Defined.

Section ChunkShape.
Local Open Scope nat_scope.

Lemma subworkArrays_each (workArray : list Hyperparameters) (W : nat) :
  0 < W ->
  forall count k,
    Forall (fun chunk => length chunk = W)
      (subworkArrays workArray (Z.of_nat W) count (Z.of_nat k)) /\
    length (subworkArrays workArray (Z.of_nat W) count (Z.of_nat k))
    = Nat.min count (length (skipn (k * W) workArray) / W).
Proof.
  intros HW. induction count as [|count IH]; intros k; simpl subworkArrays.
  - split; [constructor | reflexivity].
  - unfold len.
    replace ((Z.of_nat k + 1) * Z.of_nat W)%Z
      with (Z.of_nat (S k * W)) by lia.
    replace (Z.of_nat k * Z.of_nat W)%Z with (Z.of_nat (k * W)) by lia.
    destruct (Z.ltb_spec (Z.of_nat (length workArray)) (Z.of_nat (S k * W)))
      as [Hlt|Hge].
    + rewrite Nat.div_small by (rewrite length_skipn; lia).
      rewrite Nat.min_0_r. split; [constructor | reflexivity].
    + replace (Z.of_nat k + 1)%Z with (Z.of_nat (S k)) by lia.
      destruct (IH (S k)) as [F L]. rewrite !Nat2Z.id. split.
      * constructor; [|exact F].
        unfold slice. rewrite length_firstn, length_skipn. lia.
      * cbn [length]. rewrite L.
        set (r := skipn (k * W) workArray).
        assert (Hr : W <= length r) by (unfold r; rewrite length_skipn; lia).
        replace (skipn (S k * W) workArray) with (skipn W r)
          by (unfold r; rewrite skipn_skipn; f_equal; lia).
        replace (length r / W) with (S (length (skipn W r) / W)).
        -- rewrite <- Nat.succ_min_distr. reflexivity.
        -- rewrite length_skipn.
           replace (length r) with (1 * W + (length r - W)) at 2 by lia.
           rewrite Nat.div_add_l by lia. reflexivity.
Qed.

(** X9. For a work size [W > 0] and [count] threads, [worker] launches
    [min count (L / W)] sub-workers on the [L] permutations, each on exactly
    [W] of them, and their chunks, one after the other, are the first
    [W * min count (L / W)] permutations: no permutation is evaluated twice,
    and those that are not evaluated are the last ones. *)
Theorem chunks_shape (workArray : list Hyperparameters) (W count : nat) :
  0 < W ->
  let chunks := subworkArrays workArray (Z.of_nat W) count 0 in
  let launched := Nat.min count (length workArray / W) in
  length chunks = launched /\
  Forall (fun chunk => length chunk = W) chunks /\
  concat chunks = firstn (W * launched) workArray.
Proof.
  intros HW chunks launched.
  destruct (subworkArrays_each workArray W HW count 0) as [F L].
  split; [exact L|]. split; [exact F|].
  apply subworkArrays_concat, HW.
Qed.

Lemma chunks_shape_witness :
  let workArray := createArrayParamPermutations threeEpochCounts in
  let chunks := subworkArrays workArray (Z.of_nat 2) 2 0 in
  let launched := Nat.min 2 (length workArray / 2) in
  length chunks = launched /\
  Forall (fun chunk => length chunk = 2) chunks /\
  concat chunks = firstn (2 * launched) workArray.
Proof.
  apply (chunks_shape (createArrayParamPermutations threeEpochCounts) 2 2).
  lia.
Defined.

End ChunkShape.

Section UnusedAxes.
Context {lib : GoLibrary}.

(** X10. With one thread, a Grid that has a learning rate and an epoch
    count, and two or more candidates on one of the two axes that are not
    searched, gets a work size above its number of permutations: no
    sub-worker is launched, and the optimum handed to the writer is the one
    the worker started from, whatever the schedule and the dataset. *)
Theorem unused_axis_stops_the_single_thread (data dataNormalized : InputData)
    (minX maxX : float) (hyperParams : Hyperparameters)
    (schedule : list nat) :
  Alpha hyperParams <> [] ->
  NumEpochs hyperParams <> [] ->
  (2 <= length (Lambda hyperParams))%nat \/
  (2 <= length (MiniBatchSize hyperParams))%nat ->
  subworkArrays (createArrayParamPermutations hyperParams)
    (workSizePerThread hyperParams 1) (Z.to_nat 1) 0 = [] /\
  workerTask data minX maxX dataNormalized 1 hyperParams schedule
  = Ok (Some (initialOptimum (Outpath hyperParams))).
Proof.
  intros Ha He Hunused.
  assert (E : subworkArrays (createArrayParamPermutations hyperParams)
                (workSizePerThread hyperParams 1) (Z.to_nat 1) 0 = []).
  { change (Z.to_nat 1) with 1%nat. cbn [subworkArrays].
    replace (len (createArrayParamPermutations hyperParams)
             <? (0 + 1) * workSizePerThread hyperParams 1)%Z with true;
      [reflexivity|].
    symmetry. apply Z.ltb_lt.
    unfold workSizePerThread, numTotalParamSets, len.
    rewrite createArrayParamPermutations_length, Z.div_1_r.
    destruct (Alpha hyperParams) as [|a alphas]; [congruence|].
    destruct (NumEpochs hyperParams) as [|e epochs]; [congruence|].
    rewrite Nat2Z.inj_mul, Z.opp_involutive.
    set (A := Z.of_nat (length (a :: alphas))).
    set (E := Z.of_nat (length (e :: epochs))).
    assert (HA : (1 <= A)%Z) by (unfold A; simpl length; lia).
    assert (HE : (1 <= E)%Z) by (unfold E; simpl length; lia).
    rewrite (Z.max_r 1 A), (Z.max_r 1 E) by lia.
    assert (HAE : (1 <= A * E)%Z) by nia.
    set (l := Z.max 1 (Z.of_nat (length (Lambda hyperParams)))).
    set (m := Z.max 1 (Z.of_nat (length (MiniBatchSize hyperParams)))).
    assert (Hl : (1 <= l)%Z) by (unfold l; lia).
    assert (Hm : (1 <= m)%Z) by (unfold m; lia).
    assert (Hlm : (2 <= l * m)%Z) by (unfold l, m in *; nia).
    rewrite <- Z.mul_assoc. nia. }
  split; [exact E|].
  rewrite workerTask_unfold, E. cbn [localOptima bind]. cbv zeta.
  unfold arrive, arriving. cbn [map].
  rewrite runSchedule_absent; [reflexivity|].
  apply Forall_forall. intros i _. simpl. lia.
Qed.

End UnusedAxes.

Section Readers.
Context {lib : GoLibrary}.
Local Open Scope nat_scope.


End Readers.

Section SingleThread.
Context {lib : GoLibrary}.
Local Open Scope nat_scope.


End SingleThread.

Section PermutationOrder.
Local Open Scope nat_scope.

(** X8. The permutations of a Grid are as many as the product of its
    numbers of learning rates and of epoch counts, the epoch counts in
    their order under each learning rate in turn; each has the Grid's
    output path, and no candidate on the two other axes. *)
Theorem permutations_in_order (hyperparameters : Hyperparameters)
    (i j : nat) (alpha numEpochs : float) :
  nth_error (Alpha hyperparameters) i = Some alpha ->
  nth_error (NumEpochs hyperparameters) j = Some numEpochs ->
  length (createArrayParamPermutations hyperparameters)
  = length (Alpha hyperparameters) * length (NumEpochs hyperparameters) /\
  nth_error (createArrayParamPermutations hyperparameters)
    (i * length (NumEpochs hyperparameters) + j)
  = Some {| Outpath := Outpath hyperparameters; Alpha := [alpha];
            NumEpochs := [numEpochs]; Lambda := []; MiniBatchSize := [] |}.
Proof.
  intros Ha He. split; [apply createArrayParamPermutations_length|].
  unfold createArrayParamPermutations.
  assert (Hj : j < length (NumEpochs hyperparameters))
    by (apply nth_error_Some; congruence).
  revert i Ha.
  induction (Alpha hyperparameters) as [|a alphas IH]; intros i Ha.
  - destruct i; discriminate.
  - cbn [flat_map]. destruct i as [|i].
    + simpl in Ha. assert (a = alpha) by congruence. subst a.
      cbn [Nat.mul Nat.add].
      rewrite nth_error_app1 by (rewrite length_map; exact Hj).
      rewrite nth_error_map, He. reflexivity.
    + simpl in Ha.
      rewrite nth_error_app2 by (rewrite length_map; lia).
      rewrite length_map.
      replace (S i * length (NumEpochs hyperparameters) + j
               - length (NumEpochs hyperparameters))
        with (i * length (NumEpochs hyperparameters) + j) by lia.
      apply IH, Ha.
Qed.

Lemma permutations_in_order_witness :
  length (createArrayParamPermutations threeEpochCounts) = 1 * 3 /\
  nth_error (createArrayParamPermutations threeEpochCounts) (0 * 3 + 2)
  = Some {| Outpath := "out.csv"; Alpha := [0.5%float];
            NumEpochs := [3%float]; Lambda := []; MiniBatchSize := [] |}.
Proof.
  apply (permutations_in_order threeEpochCounts 0 2 0.5%float 3%float);
    reflexivity.
Defined.

End PermutationOrder.

Section WrittenRows.
Context {lib : GoLibrary}.


End WrittenRows.

(** ** Witnesses on the examples *)

Lemma unused_axis_stops_the_single_thread_witness :
  subworkArrays (createArrayParamPermutations twoLambdas)
    (workSizePerThread twoLambdas 1) (Z.to_nat 1) 0 = [] /\
  workerTask (lib := exampleLibrary) onTheLine 0 1 (Normalize onTheLine 0 1)
    1 twoLambdas [0; 0; 0; 0]%nat
  = Ok (Some (initialOptimum (Outpath twoLambdas))).
Proof.
  apply (unused_axis_stops_the_single_thread (lib := exampleLibrary)
           onTheLine (Normalize onTheLine 0 1) 0 1 twoLambdas
           [0; 0; 0; 0]%nat).
  - discriminate.
  - discriminate.
  - left. simpl. lia.
Defined.

Lemma optimum_is_a_permutation_witness :
  Outpath (optimalHyperParams afterThreeEpochs) = Outpath threeEpochCounts /\
  Lambda (optimalHyperParams afterThreeEpochs) = [] /\
  MiniBatchSize (optimalHyperParams afterThreeEpochs) = [].
Proof.
  destruct (optimum_is_a_permutation (lib := exampleLibrary)
              (Normalize onTheLine 0 1) onTheLine 0 1 threeEpochCounts
              afterThreeEpochs) as (O & L & M & _).
  - vm_compute. reflexivity.
  - auto.
Defined.

Lemma search_of_empty_grid_witness :
  searchSequential (lib := exampleLibrary) constantX 1 1
    (Normalize constantX 1 1)
    {| Outpath := "out.csv"; Alpha := []; NumEpochs := [1; 2];
       Lambda := []; MiniBatchSize := [] |}
  = Ok (initialOptimum "out.csv").
Proof.
  apply (search_of_empty_grid (lib := exampleLibrary)
           (Normalize constantX 1 1) constantX 1 1
           {| Outpath := "out.csv"; Alpha := []; NumEpochs := [1; 2];
              Lambda := []; MiniBatchSize := [] |}).
  left. reflexivity.
Defined.

Lemma mutual_exclusion_witness :
  0%nat = 0%nat /\
  globalParamLock
    (snd (runSchedule [0; 0]%nat (arrive [found 1; found 5] "out.csv")))
  = Some 0%nat.
Proof.
  apply (mutual_exclusion [found 1; found 5] "out.csv" [0; 0]%nat 0 0
           {| localOptimal := found 1; point := AtAssign |}
           {| localOptimal := found 1; point := AtAssign |}).
  - reflexivity.
  - left. reflexivity.
  - reflexivity.
  - left. reflexivity.
Defined.

Lemma no_deadlock_witness :
  exists i c',
    stepSubWorker i
      (runSchedule [0; 0]%nat (arrive [found 1; found 5] "out.csv"))
    = Some c'.
Proof.
  apply (no_deadlock [found 1; found 5] "out.csv" [0; 0]%nat).
  reflexivity.
Defined.

Lemma worker_chunks_complete_iff_witness :
  concat (subworkArrays (createArrayParamPermutations threeEpochCounts)
            (workSizePerThread threeEpochCounts 3) (Z.to_nat 3) 0)
  = createArrayParamPermutations threeEpochCounts
  <-> (len (createArrayParamPermutations threeEpochCounts)
       mod workSizePerThread threeEpochCounts 3 = 0)%Z.
Proof.
  apply (worker_chunks_complete_iff threeEpochCounts 3).
  - lia.
  - discriminate.
  - discriminate.
  - simpl. lia.
  - simpl. lia.
Defined.

Lemma worker_agrees_when_chunks_cover_witness :
  workerTask (lib := exampleLibrary) onTheLine 0 1 (Normalize onTheLine 0 1)
    3 threeEpochCounts (oneAfterAnother (Z.to_nat 3))
  = Ok (Some afterThreeEpochs).
Proof.
  apply (worker_agrees_when_chunks_cover (lib := exampleLibrary) onTheLine
           (Normalize onTheLine 0 1) 0 1 3 threeEpochCounts
           afterThreeEpochs); vm_compute; reflexivity.
Defined.

(** * The program as a process *)

(** ** Datasets that are empty or constant *)

Lemma ltb_irrefl (a : float) : (a <? a) = false.
Proof.
  rewrite ltb_spec. unfold SFltb, SFcompare.
  destruct (Prim2SF a) as [s|s| |s m e]; try destruct s; trivial;
    rewrite Z.compare_refl, ?Pos.compare_refl; reflexivity.
Qed.

Lemma MinMax_constant (m : float) (rest : list float) :
  (forall x, In x rest -> x = m) -> MinMax (m :: rest) = Ok (m, m).
Proof.
  intros H. unfold MinMax.
  change (index (m :: rest) 0) with (Ok m). cbn [bind].
  assert (F : forall arr, (forall x, In x arr -> x = m) ->
            fold_left
              (fun '(max, min) value =>
                 let max := if max <? value then value else max in
                 let min := if value <? min then value else min in
                 (max, min))
              arr (m, m) = (m, m)).
  { induction arr as [|x arr IH]; intros Hall; [reflexivity|].
    cbn [fold_left]. rewrite (Hall x) by (left; reflexivity).
    rewrite ltb_irrefl. apply IH. intros y Hy. apply Hall. right. exact Hy. }
  rewrite F; [reflexivity|].
  intros x [<-|Hx]; [reflexivity | apply H, Hx].
Qed.

Section Rejection.
Context {lib : GoLibrary} {out : Output}.

(** C2, amended. No dataset is rejected by a check. A dataset without X
    values makes the min/max scan panic on its first index, which ends the
    sequential search, and a worker, before any Grid is read, searched or
    written. A dataset with X values is taken as it is: the scan and the
    normalization return, also when all X values are equal, in which case
    the minimum equals the maximum and the division by their difference
    leaves no finite normalized value; the sequential search goes on to
    read its input and to search the Grids, and with a Y value for every X
    value the search of every Grid returns. *)
Theorem only_the_empty_dataset_is_rejected (data : InputData) :
  (X data = [] ->
   MinMax (X data) = Panic /\
   (forall stdin, main.gridSearchSequential data stdin = ([], Panics)) /\
   (forall numThreads channel scheduler,
      main.worker data numThreads channel scheduler = ([], Panics))) /\
  (X data <> [] ->
   exists minX maxX,
     MinMax (X data) = Ok (minX, maxX) /\
     length (X (Normalize data minX maxX)) = length (X data) /\
     (forall m, (forall x, In x (X data) -> x = m) ->
        minX = m /\ maxX = m /\
        Forall (fun x => is_finite x = false)
          (X (Normalize data minX maxX))) /\
     (forall stdin,
        main.gridSearchSequential data stdin
        = match main.readJSONInputTasks stdin with
          | None => ([], NeverReturns)
          | Some hyperParamsTasks =>
              main.searchAndWrite data minX maxX (Normalize data minX maxX)
                hyperParamsTasks
          end) /\
     (length (X data) <= length (Y data) ->
      forall hyperParams, exists best,
        searchSequential data minX maxX (Normalize data minX maxX)
          hyperParams = Ok best)).
Proof.
  split.
  - intros E. unfold main.gridSearchSequential, main.worker. rewrite E.
    repeat split.
  - intros Hne.
    destruct (MinMax_Ok (X data) Hne) as (minX & maxX & M).
    exists minX, maxX. split; [exact M|].
    destruct (Normalize_lengths data minX maxX) as [LX LY].
    split; [exact LX|]. split; [|split].
    + intros m Hall.
      destruct (X data) as [|first rest] eqn:EX; [congruence|].
      assert (first = m) by (apply Hall; left; reflexivity). subst first.
      rewrite MinMax_constant in M
        by (intros x Hx; apply Hall; right; exact Hx).
      assert (minX = m /\ maxX = m) as [-> ->].
      { split.
        - exact (f_equal (fun r => match r with
                                   | Ok (a, _) => a
                                   | Panic => minX
                                   end) (eq_sym M)).
        - exact (f_equal (fun r => match r with
                                   | Ok (_, b) => b
                                   | Panic => maxX
                                   end) (eq_sym M)). }
      repeat split.
      unfold Normalize. cbn [X]. apply Forall_forall. intros x Hx.
      apply in_map_iff in Hx. destruct Hx as (x0 & <- & _).
      apply div_by_sub_diag.
    + intros stdin. unfold main.gridSearchSequential. rewrite M. reflexivity.
    + intros HY hyperParams.
      apply searchSequential_Ok; [exact HY|]. rewrite LX, LY. exact HY.
Qed.

End Rejection.

(** C2, as stated, fails on the dataset whose X values are both 1: the scan
    returns min = max = 1, the normalization divides 0 by 0 and returns NaN
    for every X value, and the sequential search of a Grid, of which no
    permutation is an improvement then, writes its row and returns. *)
Lemma constant_X_is_searched :
  MinMax (X constantX) = Ok (1, 1) /\
  forallb is_nan (X (Normalize constantX 1 1)) = true /\
  main.gridSearchSequential (lib := exampleLibrary) (out := exampleOutput)
    constantX {| before := [Decoded goodRecord]; endsInError := false |}
  = ([({| Outpath := "out.csv"; Alpha := []; NumEpochs := [];
          Lambda := []; MiniBatchSize := [] |},
       {| Mu := 0; Beta := 0 |})], Returns).
Proof.
  split; [reflexivity|]. split; [reflexivity|]. vm_compute. reflexivity.
Qed.

Lemma only_the_empty_dataset_is_rejected_witness :
  exists minX maxX,
    MinMax (X constantX) = Ok (minX, maxX) /\
    minX = 1 /\ maxX = 1 /\
    Forall (fun x => is_finite x = false)
      (X (Normalize constantX minX maxX)) /\
    forall hyperParams, exists best,
      searchSequential (lib := exampleLibrary) constantX minX maxX
        (Normalize constantX minX maxX) hyperParams = Ok best.
Proof.
  destruct (proj2 (only_the_empty_dataset_is_rejected (lib := exampleLibrary)
                     (out := exampleOutput) constantX))
    as (minX & maxX & M & _ & C & _ & S).
  - discriminate.
  - destruct (C 1) as (Emin & Emax & F).
    + intros x [<-|[<-|[]]]; reflexivity.
    + exists minX, maxX. repeat split; trivial.
      apply S. simpl. lia.
Defined.

(** ** When the sequential search panics *)

Section SequentialEnding.
Context {lib : GoLibrary} {out : Output}.
Local Open Scope nat_scope.

Lemma searchAndWrite_never_panics (data dataNormalized : InputData)
    (minX maxX : float) (tasks : list Hyperparameters) :
  (forall hyperParams, In hyperParams tasks ->
     exists best,
       searchSequential data minX maxX dataNormalized hyperParams = Ok best) ->
  snd (main.searchAndWrite data minX maxX dataNormalized tasks) <> Panics.
Proof.
  induction tasks as [|hp tasks IH]; intros H; cbn [main.searchAndWrite].
  - discriminate.
  - destruct (H hp) as [best E]; [left; reflexivity|]. rewrite E.
    destruct (main.writer _ _); [|discriminate].
    destruct (main.searchAndWrite data minX maxX dataNormalized tasks)
      as [rows e] eqn:R.
    cbn [snd] in *. apply IH. intros hp' Hin. apply H. right. exact Hin.
Qed.

Lemma searchAndWrite_panics_iff (data dataNormalized : InputData)
    (minX maxX : float) (tasks : list Hyperparameters) :
  length (Y data) < length (X data) ->
  snd (main.searchAndWrite data minX maxX dataNormalized tasks) = Panics
  <-> exists earlier hyperParams later,
        tasks = earlier ++ hyperParams :: later /\
        Alpha hyperParams <> [] /\ NumEpochs hyperParams <> [] /\
        Forall (fun task =>
                  (Alpha task = [] \/ NumEpochs task = []) /\
                  main.writer
                    (optimalHyperParams (initialOptimum (Outpath task)))
                    (optimalModelParams (initialOptimum (Outpath task)))
                  <> None) earlier.
Proof.
  intros Short. induction tasks as [|hp tasks IH]; cbn [main.searchAndWrite].
  - split; [discriminate|].
    intros (earlier & h & later & E & _). destruct earlier; discriminate.
  - destruct (Alpha hp) as [|a alphas] eqn:EA;
      [|destruct (NumEpochs hp) as [|n epochs] eqn:EN].
    3:{ rewrite searchSequential_short;
          [|exact Short|rewrite EA; discriminate|rewrite EN; discriminate].
        split; [|reflexivity]. intros _.
        exists [], hp, tasks. rewrite EA, EN.
        repeat split; try discriminate. constructor. }
    all: rewrite (searchSequential_no_permutation dataNormalized data minX
                    maxX hp)
      by (apply no_permutation_iff; rewrite ?EA, ?EN; tauto).
    all: destruct (main.writer
                     (optimalHyperParams (initialOptimum (Outpath hp)))
                     (optimalModelParams (initialOptimum (Outpath hp))))
      as [file|] eqn:W.
    all: try (destruct (main.searchAndWrite data minX maxX dataNormalized
                          tasks) as [rows e] eqn:R; cbn [snd] in *;
              rewrite IH; split;
              [ intros (earlier & h & later & E & Ha & He & F);
                exists (hp :: earlier), h, later; rewrite E;
                repeat split; trivial; constructor; trivial;
                split; [rewrite ?EA, ?EN; tauto | rewrite W; discriminate]
              | intros (earlier & h & later & E & Ha & He & F);
                destruct earlier as [|hp' earlier];
                [ injection E as <- _; rewrite ?EA, ?EN in *; congruence
                | injection E as <- E; inversion F; subst;
                  exists earlier, h, later; repeat split; trivial ] ]).
    all: split; [discriminate|];
      intros (earlier & h & later & E & Ha & He & F);
      destruct earlier as [|hp' earlier];
      [ injection E as <- _; rewrite ?EA, ?EN in *; congruence
      | injection E as <- E; inversion F as [|? ? [_ Hw] ?]; subst;
        rewrite W in Hw; congruence ].
Qed.

(** X14. The sequential search ends in a panic in exactly two cases. The
    dataset has no X value. Or it has fewer Y values than X values, the
    input comes to its end without an error that stays in the decoder, and
    it holds a Grid with a learning rate and an epoch count before which
    every Grid has none and has had its row written: a Grid whose row
    cannot be written ends the process first, and an input that ends in
    such an error keeps the search from starting. *)
Theorem gridSearchSequential_panics_iff (data : InputData) (stdin : Stdin) :
  snd (main.gridSearchSequential data stdin) = Panics
  <-> X data = [] \/
      (length (Y data) < length (X data) /\
       endsInError stdin = false /\
       exists earlier hyperParams later,
         readJSONInputTasks (before stdin)
         = earlier ++ hyperParams :: later /\
         Alpha hyperParams <> [] /\ NumEpochs hyperParams <> [] /\
         Forall (fun task =>
                   (Alpha task = [] \/ NumEpochs task = []) /\
                   main.writer
                     (optimalHyperParams (initialOptimum (Outpath task)))
                     (optimalModelParams (initialOptimum (Outpath task)))
                   <> None) earlier).
Proof.
  unfold main.gridSearchSequential, main.readJSONInputTasks.
  destruct (X data) as [|first rest] eqn:EX.
  - split; [left; reflexivity | reflexivity].
  - destruct (MinMax_Ok (first :: rest)) as (minX & maxX & M);
      [discriminate|].
    rewrite M. cbv zeta.
    destruct (endsInError stdin).
    + split; [discriminate|].
      intros [E|(_ & E & _)]; discriminate.
    + destruct (Normalize_lengths data minX maxX) as [LX LY].
      destruct (Nat.lt_ge_cases (length (Y data)) (length (X data)))
        as [Short|Enough].
      * rewrite searchAndWrite_panics_iff by exact Short.
        rewrite EX in Short. split.
        { intros H. right. repeat split; trivial. }
        { intros [E|(_ & _ & H)]; [discriminate | exact H]. }
      * split.
        { intros P. exfalso. revert P. apply searchAndWrite_never_panics.
          intros hp _. apply searchSequential_Ok; [exact Enough|].
          rewrite LX, LY. exact Enough. }
        { intros [E|(Short & _)]; [discriminate|].
          rewrite EX in Enough. lia. }
Qed.

End SequentialEnding.

(** ** The readers *)

Section BatchReader.
Context {lib : GoLibrary}.
Local Open Scope nat_scope.



End BatchReader.


Lemma numReaders_fifth (numThreads : Z) :
  (- 512 <= numThreads <= 4096)%Z ->
  main.numReaders numThreads = (- ((- numThreads) / 5))%Z.
Proof.
  intros H.
  assert (C : forallb
                (fun n => (main.numReaders n =? - ((- n) / 5))%Z)
                (map (fun k => (- 512 + Z.of_nat k)%Z) (seq 0 4609))
              = true) by (vm_compute; reflexivity).
  rewrite forallb_forall in C. apply Z.eqb_eq, C.
  apply in_map_iff. exists (Z.to_nat (numThreads + 512)).
  split; [lia|]. apply in_seq. lia.
Qed.

(** X21. For a thread count from 1 to 4096 the number of readers is the
    count divided by 5 and rounded up: between one reader and as many
    readers as threads, one for every five threads or part of five. For a
    thread count from -512 to 0 no reader is started. The number of
    readers is computed in [float64], where the product with the nearest
    [float64] to 1/5 is rounded: for 22517998136852496 threads it is one
    less than the count divided by 5 and rounded up. *)
Theorem numReaders_bounds :
  (forall numThreads,
     1 <= numThreads <= 4096 ->
     main.numReaders numThreads = - ((- numThreads) / 5) /\
     1 <= main.numReaders numThreads <= numThreads /\
     5 * (main.numReaders numThreads - 1) < numThreads
     <= 5 * main.numReaders numThreads)%Z /\
  (forall numThreads,
     - 512 <= numThreads <= 0 -> main.numReaders numThreads <= 0)%Z /\
  (main.numReaders 22517998136852496 = 4503599627370499 /\
   - ((- 22517998136852496) / 5) = 4503599627370500)%Z.
Proof.
  split; [|split].
  - intros n H. rewrite numReaders_fifth by lia.
    pose proof (Z.div_mod (- n) 5) as D.
    pose proof (Z.mod_pos_bound (- n) 5) as B. lia.
  - intros n H. rewrite numReaders_fifth by lia.
    pose proof (Z.div_mod (- n) 5) as D.
    pose proof (Z.mod_pos_bound (- n) 5) as B. lia.
  - split; vm_compute; reflexivity.
Qed.

Lemma numReaders_bounds_witness :
  (main.numReaders 12 = - ((- 12) / 5) /\
   1 <= main.numReaders 12 <= 12 /\
   5 * (main.numReaders 12 - 1) < 12 <= 5 * main.numReaders 12)%Z.
Proof.
  apply (proj1 numReaders_bounds 12%Z). lia.
Defined.

(** ** The readers and their workers *)

Section ReaderProcess.
Context {lib : GoLibrary} {out : Output}.
Local Open Scope nat_scope.












End ReaderProcess.


(** ** One thread *)

Section SingleThreadProcess.
Context {lib : GoLibrary} {out : Output}.
Local Open Scope nat_scope.

Variables (data : InputData) (blockSize : Z) (minX maxX : float).
Hypothesis M : MinMax (X data) = Ok (minX, maxX).
Hypothesis HY : length (X data) <= length (Y data).
Hypothesis Hb : (1 <= blockSize)%Z.



End SingleThreadProcess.



(** ** Loading the dataset *)

Section LoadingFacts.
Context {lib : GoLibrary}.
Local Open Scope nat_scope.

Lemma loadLoop_set (n : nat) (lines : list csvLine) :
  2 <= n ->
  forall xVector yVector,
    loadLoop n lines xVector yVector <> Panicked /\
    forall data,
      loadLoop n lines xVector yVector = Returned data
      <-> exists records,
            lines = map Fields records /\
            Forall (fun line => length line = n) records /\
            data
            = {| X := xVector
                      ++ map (fun line =>
                                fst (strconv_ParseFloat
                                       (nth 0 line EmptyString))) records;
                 Y := yVector
                      ++ map (fun line =>
                                fst (strconv_ParseFloat
                                       (nth 1 line EmptyString))) records |}.
Proof.
  intros Hn. induction lines as [|[line|] lines IH]; intros xs ys;
    cbn [loadLoop].
  - split; [discriminate|]. intros data. split.
    + intros E. exists []. cbn [map]. rewrite !app_nil_r.
      repeat split; [constructor|].
      exact (f_equal (fun r => match r with
                               | Returned d => d
                               | _ => data
                               end) (eq_sym E)).
    + intros (records & E & _ & ->). destruct records; [|discriminate].
      cbn [map]. rewrite !app_nil_r. reflexivity.
  - replace (0 <? n) with true by (symmetry; apply Nat.ltb_lt; lia).
    cbn [andb].
    destruct (Nat.eqb_spec (length line) n) as [El|Nl]; cbn [negb].
    + replace (n =? 0) with false by (symmetry; apply Nat.eqb_neq; lia).
      destruct line as [|field0 [|field1 line]];
        try (cbn [length] in El; lia).
      unfold index. cbn [nth_error].
      destruct (IH (xs ++ [fst (strconv_ParseFloat field0)])
                  (ys ++ [fst (strconv_ParseFloat field1)])) as [NP R].
      split; [exact NP|]. intros data. rewrite R. split.
      * intros (records & -> & F & ->).
        exists ((field0 :: field1 :: line) :: records).
        cbn [map nth]. rewrite <- !app_assoc.
        repeat split. constructor; trivial.
      * intros (records & E & F & ->).
        destruct records as [|record records]; [discriminate|].
        cbn [map] in E.
        assert (record = field0 :: field1 :: line) by congruence.
        assert (lines = map Fields records) by congruence.
        subst record lines. inversion F; subst.
        exists records. cbn [map nth]. rewrite <- !app_assoc.
        repeat split. trivial.
    + split; [discriminate|]. intros data. split; [discriminate|].
      intros (records & E & F & _).
      destruct records as [|record records]; [discriminate|].
      cbn [map] in E. assert (record = line) by congruence. subst record.
      inversion F; subst. congruence.
  - split; [discriminate|]. intros data. split; [discriminate|].
    intros (records & E & _). destruct records; discriminate.
Qed.

Lemma LoadTrainingData_Returned (csvFile : option (list csvLine))
    (data : InputData) :
  LoadTrainingData csvFile = Returned data
  <-> exists records n,
        csvFile = Some (map Fields records) /\ 2 <= n /\
        Forall (fun line => length line = n) records /\
        data
        = {| X := map (fun line =>
                         fst (strconv_ParseFloat (nth 0 line EmptyString)))
                    records;
             Y := map (fun line =>
                         fst (strconv_ParseFloat (nth 1 line EmptyString)))
                    records |}.
Proof.
  destruct csvFile as [[|[line|] lines]|]; cbn [LoadTrainingData loadLoop].
  - split.
    + intros E. exists [], 2. split; [reflexivity|]. split; [lia|].
      split; [constructor|].
      exact (f_equal (fun r => match r with
                               | Returned d => d
                               | _ => data
                               end) (eq_sym E)).
    + intros (records & n & E & _ & _ & ->).
      destruct records; [reflexivity|discriminate].
  - cbn [Nat.ltb Nat.leb andb Nat.eqb].
    destruct line as [|field0 [|field1 line]].
    + unfold index. cbn [nth_error]. split; [discriminate|].
      intros (records & n & E & Hn & F & _).
      destruct records as [|record records]; [discriminate|].
      assert (record = []) by (cbn [map] in E; congruence). subst record.
      inversion F; subst. cbn [length] in Hn. lia.
    + unfold index. cbn [nth_error]. split; [discriminate|].
      intros (records & n & E & Hn & F & _).
      destruct records as [|record records]; [discriminate|].
      assert (record = [field0]) by (cbn [map] in E; congruence).
      subst record. inversion F; subst. cbn [length] in Hn. lia.
    + unfold index. cbn [nth_error app].
      destruct (loadLoop_set (length (field0 :: field1 :: line)) lines)
        with (xVector := [fst (strconv_ParseFloat field0)])
             (yVector := [fst (strconv_ParseFloat field1)]) as [_ R].
      { cbn [length]. lia. }
      rewrite R. split.
      * intros (records & -> & F & ->).
        exists ((field0 :: field1 :: line) :: records),
          (length (field0 :: field1 :: line)).
        split; [reflexivity|]. split; [cbn [length]; lia|].
        split; [constructor; trivial | reflexivity].
      * intros (records & n & E & Hn & F & ->).
        destruct records as [|record records]; [discriminate|].
        cbn [map] in E.
        assert (record = field0 :: field1 :: line) by congruence.
        assert (lines = map Fields records) by congruence.
        subst record lines. inversion F; subst.
        exists records. repeat split. trivial.
  - split; [discriminate|].
    intros (records & n & E & _). destruct records; discriminate.
  - split; [discriminate|].
    intros (records & n & E & _). discriminate.
Qed.

(** X24. Loading panics exactly when the first line of the file is a
    record with fewer than two fields. It returns exactly when the file
    opens, every line is a record and all records have the same number of
    fields, at least two: the dataset then has one X and one Y value per
    record, in the order of the file, what [strconv.ParseFloat] returns for
    the first and for the second field, so 0 for a field that is not a
    number, and as many X as Y values. In every other case, a file that
    does not open, a line that is no record, a record that has not as many
    fields as the first, loading ends the process. *)
Theorem LoadTrainingData_spec (csvFile : option (list csvLine)) :
  (LoadTrainingData csvFile = Panicked
   <-> exists line lines,
         csvFile = Some (Fields line :: lines) /\ length line < 2) /\
  (forall data,
     LoadTrainingData csvFile = Returned data
     <-> exists records n,
           csvFile = Some (map Fields records) /\ 2 <= n /\
           Forall (fun line => length line = n) records /\
           data
           = {| X := map (fun line =>
                            fst (strconv_ParseFloat (nth 0 line EmptyString)))
                       records;
                Y := map (fun line =>
                            fst (strconv_ParseFloat (nth 1 line EmptyString)))
                       records |}) /\
  (forall data,
     LoadTrainingData csvFile = Returned data ->
     length (X data) = length (Y data)).
Proof.
  split; [|split].
  - destruct csvFile as [[|[line|] lines]|];
      cbn [LoadTrainingData loadLoop].
    + split; [discriminate|]. intros (line & lines & E & _). discriminate.
    + cbn [Nat.ltb Nat.leb andb Nat.eqb].
      destruct line as [|field0 [|field1 line]]; unfold index;
        cbn [nth_error].
      * split; [|reflexivity]. intros _. exists [], lines.
        split; [reflexivity | cbn [length]; lia].
      * split; [|reflexivity]. intros _. exists [field0], lines.
        split; [reflexivity | cbn [length]; lia].
      * destruct (loadLoop_set (length (field0 :: field1 :: line)) lines)
          with (xVector := [] ++ [fst (strconv_ParseFloat field0)])
               (yVector := [] ++ [fst (strconv_ParseFloat field1)])
          as [NP _].
        { cbn [length]. lia. }
        split; [intros P; contradiction|].
        intros (line' & lines' & E & L).
        assert (line' = field0 :: field1 :: line) by congruence.
        subst line'. cbn [length] in L. lia.
    + split; [discriminate|]. intros (line & lines' & E & _). discriminate.
    + split; [discriminate|]. intros (line & lines' & E & _). discriminate.
  - apply LoadTrainingData_Returned.
  - intros data E. apply LoadTrainingData_Returned in E.
    destruct E as (records & n & _ & _ & _ & ->). cbn [X Y].
    rewrite !length_map. reflexivity.
Qed.


(** X25. On the dataset loaded from a file, the sequential search panics
    exactly when the file has no record: with a record in the file there is
    an X value to scan and a Y value for every X value, whatever the input
    and whatever can be written. *)
Theorem loaded_data_is_searched {out : Output}
    (csvFile : option (list csvLine)) (data : InputData) (stdin : Stdin) :
  LoadTrainingData csvFile = Returned data ->
  (snd (main.gridSearchSequential data stdin) = Panics
   <-> csvFile = Some []).
Proof.
  intros E. apply LoadTrainingData_Returned in E.
  destruct E as (records & n & -> & _ & _ & ->).
  unfold main.gridSearchSequential. cbn [X].
  destruct records as [|record records]; cbn [map].
  - split; reflexivity.
  - split; [|discriminate]. intros P. exfalso. revert P.
    set (data := {| X := _; Y := _ |}).
    destruct (MinMax_Ok (X data)) as (minX & maxX & M); [discriminate|].
    change (fst (strconv_ParseFloat (nth 0 record EmptyString))
            :: map (fun line =>
                      fst (strconv_ParseFloat (nth 0 line EmptyString)))
                 records) with (X data).
    rewrite M. cbv zeta.
    destruct (main.readJSONInputTasks stdin) as [tasks|]; [|discriminate].
    apply searchAndWrite_never_panics. intros hp _.
    destruct (Normalize_lengths data minX maxX) as [LX LY].
    assert (HY : length (X data) <= length (Y data))
      by (unfold data; cbn [X Y length]; rewrite !length_map; lia).
    apply searchSequential_Ok; [exact HY|]. rewrite LX, LY. exact HY.
Qed.

End LoadingFacts.

Lemma loaded_data_is_searched_witness :
  snd (main.gridSearchSequential (lib := exampleLibrary)
         (out := exampleOutput)
         {| X := [0; 1]; Y := [0; 0] |}
         {| before := [Decoded goodRecord]; endsInError := true |})
  <> Panics.
Proof.
  intros P.
  apply (loaded_data_is_searched (lib := exampleLibrary)
           (out := exampleOutput)
           (Some [Fields ["0"; "0"]%string; Fields ["1"; "one"]%string]))
    in P.
  - discriminate.
  - reflexivity.
Defined.

(** ** The rows written *)

Section WrittenRowsOfTheProcess.
Context {lib : GoLibrary} {out : Output}.


End WrittenRowsOfTheProcess.


Lemma gridSearchSequential_panics_iff_witness :
  snd (main.gridSearchSequential (lib := exampleLibrary)
         (out := exampleOutput) {| X := [0; 1]; Y := [0] |}
         {| before := [Decoded goodRecord]; endsInError := false |})
  = Panics.
Proof.
  apply (gridSearchSequential_panics_iff (lib := exampleLibrary)
           (out := exampleOutput)).
  right. split; [simpl; lia|]. split; [reflexivity|].
  exists [], (fillHyperparameters (lib := exampleLibrary) goodRecord), [].
  split; [reflexivity|].
  split; [discriminate|]. split; [discriminate | constructor].
Defined.

Lemma LoadTrainingData_spec_witness :
  length (X {| X := [0; 1]; Y := [0; 0] |})
  = length (Y {| X := [0; 1]; Y := [0; 0] |}).
Proof.
  apply (proj2 (proj2 (LoadTrainingData_spec (lib := exampleLibrary)
                         (Some [Fields ["0"; "0"]%string;
                                Fields ["1"; "one"]%string])))).
  reflexivity.
Defined.
